(** * Taymagotchi: the pet state machine (pet.py) and the drag handling (app.py)

    A shallow embedding of [PetState], the methods of [Pet] and
    [App.handle_events], followed by the properties of the design
    specification that concern them.

    Conventions of the embedding.
    - A Python [float] is an exact rational ([Q]): the properties below are
      about ordering and clamping, not about rounding; NaN and the
      infinities have no counterpart.  A Python [int] is a [Z].
    - [time.time()], the save file and [print] are effects: they are
      threaded through a [World] by the state monad [M].  A file is kept
      as the JSON value that its text stands for, not as text.
    - A method is a function of the attributes of [self] that it reads or
      writes ([self.state] for the game logic, [self.save_path] and
      [self.state] for persistence). *)

From Stdlib Require Import QArith Qround ZArith Lia Lqa List String Bool.
From stdpp Require Import gmap strings.
Import ListNotations.
Set Warnings "-register-all".

Local Open Scope Q_scope.

(** ** Python built-ins used by the source *)

(** [min(a, b)]: the first argument is kept unless the second is strictly
    smaller. *)
Definition py_min (a b : Q) : Q := if Qlt_le_dec b a then b else a.

(** [max(a, b)]: the first argument is kept unless the second is strictly
    larger. *)
Definition py_max (a b : Q) : Q := if Qlt_le_dec a b then b else a.

(** [min(a, b, c)]. *)
Definition py_min3 (a b c : Q) : Q := py_min (py_min a b) c.

(** [int(x)] on a float: truncation toward zero. *)
Definition py_int (x : Q) : Z := Z.quot (Qnum x) (Zpos (Qden x)).

(** [a < b] on floats. *)
Definition Qlt_bool (a b : Q) : bool := negb (Qle_bool b a).

(** ** JSON values, as [json.load] returns them and [json.dump] takes them *)

Inductive json : Type :=
| JNull
| JBool (b : bool)
| JInt (z : Z)
| JFloat (q : Q)
| JStr (s : string)
| JArr (l : list json)
| JObj (m : gmap string json).

(** ** The world: wall clock, file system, standard output *)

Inductive exn : Type := OSError | JSONDecodeError | TypeError.

(** What a path names.  [Text j] is a file whose text [json.load] parses
    to [j]; [Garbage] is a file whose text it rejects. *)
Inductive contents : Type := Text (j : json) | Garbage.
Inductive node : Type := File (c : contents) | Dir.

(** The lines printed by pet.py, with the values they interpolate. *)
Inductive message : Type :=
| Loaded (path : string)
| LoadFailed (e : exn)
| SaveFailed (e : exn)
| Fed (hunger_now : Q)
| Drank (thirst_now : Q)
| Played (happiness_now : Q)
| ResetDone.

(** [clock n] is what the [n]-th call of [time.time()] returns; [reads]
    counts the calls made so far. *)
Record World : Type := mkWorld {
  clock : nat -> Q;
  reads : nat;
  fs : gmap string node;
  stdout : list message
}.

Definition M (A : Type) : Type := World -> A * World.

Definition ret {A} (a : A) : M A := fun w => (a, w).

Definition bind {A B} (c : M A) (k : A -> M B) : M B :=
  fun w => let (a, w') := c w in k a w'.

Notation "x <- c ;; k" := (bind c (fun x => k))
  (at level 100, c at next level, right associativity).

Definition time_time : M Q :=
  fun w => (clock w (reads w),
            mkWorld (clock w) (S (reads w)) (fs w) (stdout w)).

Definition print (m : message) : M unit :=
  fun w => (tt, mkWorld (clock w) (reads w) (fs w) (stdout w ++ [m])).

(** ** settings.py *)

Definition STAT_DECAY_PER_MIN : Q := 1 / 60.
Definition FEED_AMOUNT : Q := 25.
Definition PLAY_AMOUNT : Q := 25.
Definition SAVE_PATH : string := "save.json".

(** ** pet.py: [PetState] *)

Record PetState : Type := mkPetState {
  hunger : Q;             (* 0 = full, 100 = starving *)
  thirst : Q;             (* 0 = hydrated, 100 = dehydrated *)
  happiness : Q;          (* 0 = sad, 100 = happy *)
  level : Z;
  last_level_update : Q;  (* timestamp of the last level change *)
  is_neglected : bool
}.

(** [PetState()]: the dataclass defaults. *)
Definition PetState_default : PetState := mkPetState 0 0 100 1%Z 0 false.

Definition set_hunger (v : Q) (s : PetState) : PetState :=
  mkPetState v (thirst s) (happiness s) (level s) (last_level_update s) (is_neglected s).
Definition set_thirst (v : Q) (s : PetState) : PetState :=
  mkPetState (hunger s) v (happiness s) (level s) (last_level_update s) (is_neglected s).
Definition set_happiness (v : Q) (s : PetState) : PetState :=
  mkPetState (hunger s) (thirst s) v (level s) (last_level_update s) (is_neglected s).
Definition set_level (v : Z) (s : PetState) : PetState :=
  mkPetState (hunger s) (thirst s) (happiness s) v (last_level_update s) (is_neglected s).
Definition set_last_level_update (v : Q) (s : PetState) : PetState :=
  mkPetState (hunger s) (thirst s) (happiness s) (level s) v (is_neglected s).
Definition set_is_neglected (v : bool) (s : PetState) : PetState :=
  mkPetState (hunger s) (thirst s) (happiness s) (level s) (last_level_update s) v.

(** The derived bars, higher is better (computed in [Pet.mood]). *)
Definition food_bar (s : PetState) : Q := 100 - hunger s.
Definition water_bar (s : PetState) : Q := 100 - thirst s.
Definition heart_bar (s : PetState) : Q := happiness s.

(** The raw stats are all within [0, 100]. *)
Definition in_range (s : PetState) : Prop :=
  (0 <= hunger s /\ hunger s <= 100) /\
  (0 <= thirst s /\ thirst s <= 100) /\
  (0 <= happiness s /\ happiness s <= 100).

(** ** pet.py: player actions *)

Definition feed (amount : Q) (s : PetState) : M PetState :=
  let s := set_hunger (py_max 0 (hunger s - amount)) s in
  _ <- print (Fed (hunger s)) ;;
  ret s.

Definition drink (amount : Q) (s : PetState) : M PetState :=
  let s := set_thirst (py_max 0 (thirst s - amount)) s in
  _ <- print (Drank (thirst s)) ;;
  ret s.

Definition play (amount : Q) (s : PetState) : M PetState :=
  let s := set_happiness (py_min 100 (happiness s + amount)) s in
  _ <- print (Played (happiness s)) ;;
  ret s.

Definition reset (s : PetState) : M PetState :=
  let s := PetState_default in
  t <- time_time ;;
  let s := set_last_level_update t s in
  _ <- print ResetDone ;;
  ret s.

(** ** pet.py: [Pet.tick] *)

(** Lines 65-67: all stats decay at the same rate. *)
Definition tick_decay (minutes_elapsed decay_rate : Q) (s : PetState) : PetState :=
  let s := set_hunger (py_min 100 (hunger s + decay_rate * minutes_elapsed)) s in
  let s := set_thirst (py_min 100 (thirst s + decay_rate * minutes_elapsed)) s in
  set_happiness (py_max 0 (happiness s - decay_rate * minutes_elapsed)) s.

(** Lines 70-79: the neglect flag is recomputed; on recovery the level
    timer is reset to a fresh reading of the clock. *)
Definition tick_neglect (s : PetState) : M PetState :=
  let food_bar := py_max 0 (100 - hunger s) in
  let water_bar := py_max 0 (100 - thirst s) in
  let heart_bar := happiness s in
  let was_neglected := is_neglected s in
  let s := set_is_neglected
             (Qle_bool food_bar 0 && Qle_bool water_bar 0 && Qle_bool heart_bar 0) s in
  if was_neglected && negb (is_neglected s) then
    t <- time_time ;;
    ret (set_last_level_update t s)
  else ret s.

(** Lines 82-96: the level changes once per elapsed day. *)
Definition tick_level (s : PetState) : M PetState :=
  now <- time_time ;;
  let time_since_level_update := now - last_level_update s in
  if Qle_bool 86400 time_since_level_update then
    let days_elapsed := py_int (time_since_level_update / 86400) in
    let s := if is_neglected s
             then set_level (Z.max 1 (level s - days_elapsed)) s
             else set_level (level s + days_elapsed) s in
    ret (set_last_level_update now s)
  else ret s.

Definition tick (minutes_elapsed decay_rate : Q) (s : PetState) : M PetState :=
  let s := tick_decay minutes_elapsed decay_rate s in
  s <- tick_neglect s ;;
  tick_level s.

(** ** pet.py: [Pet.mood] *)

Inductive Mood : Type := hungry | thirsty | sad | happy.

Definition mood (s : PetState) : Mood :=
  let food_bar := 100 - hunger s in
  let water_bar := 100 - thirst s in
  let heart_bar := happiness s in
  if Qlt_bool 70 food_bar && Qlt_bool 70 water_bar && Qlt_bool 70 heart_bar then happy
  else if Qlt_bool food_bar 30 then hungry
  else if Qlt_bool water_bar 30 then thirsty
  else if Qlt_bool heart_bar 30 then sad
  else
    let min_stat := py_min3 food_bar water_bar heart_bar in
    if Qeq_bool min_stat food_bar then hungry
    else if Qeq_bool min_stat water_bar then thirsty
    else sad.

(** ** pet.py: persistence *)

(** A dataclass checks none of its annotations: the constructor, called
    with the dictionary [data] as keyword arguments, stores its values as
    they come.  [RawPetState] is such an instance; [raw] embeds the
    instances whose fields hold values of the annotated types, the ones
    the game logic computes with, and [typed] recognises them. *)
Record RawPetState : Type := mkRaw {
  raw_hunger : json;
  raw_thirst : json;
  raw_happiness : json;
  raw_level : json;
  raw_last_level_update : json;
  raw_is_neglected : json
}.

Definition raw (s : PetState) : RawPetState :=
  mkRaw (JFloat (hunger s)) (JFloat (thirst s)) (JFloat (happiness s))
        (JInt (level s)) (JFloat (last_level_update s)) (JBool (is_neglected s)).

Definition typed (r : RawPetState) : option PetState :=
  match raw_hunger r, raw_thirst r, raw_happiness r,
        raw_level r, raw_last_level_update r, raw_is_neglected r with
  | JFloat h, JFloat t, JFloat p, JInt l, JFloat u, JBool n =>
      Some (mkPetState h t p l u n)
  | _, _, _, _, _, _ => None
  end.

Definition field_names : list string :=
  ["hunger"; "thirst"; "happiness"; "level"; "last_level_update"; "is_neglected"]%string.

(** [asdict(self.state)]. *)
Definition asdict (s : PetState) : gmap string json :=
  <["hunger" := JFloat (hunger s)]>
  (<["thirst" := JFloat (thirst s)]>
  (<["happiness" := JFloat (happiness s)]>
  (<["level" := JInt (level s)]>
  (<["last_level_update" := JFloat (last_level_update s)]>
  (<["is_neglected" := JBool (is_neglected s)]> ∅))))).

(** The constructor called with [data] as keyword arguments: a
    [TypeError] when [data] is no mapping or has a key that is no field; a
    missing field takes its default. *)
Definition PetState_init (data : json) : exn + RawPetState :=
  match data with
  | JObj kw =>
      if decide (map_Forall (fun k _ => k ∈ field_names) kw) then
        inr (mkRaw (default (JFloat 0) (kw !! "hunger"))
                   (default (JFloat 0) (kw !! "thirst"))
                   (default (JFloat 100) (kw !! "happiness"))
                   (default (JInt 1) (kw !! "level"))
                   (default (JFloat 0) (kw !! "last_level_update"))
                   (default (JBool false) (kw !! "is_neglected")))
      else inl TypeError
  | _ => inl TypeError
  end.

(** [json.load(f)]. *)
Definition json_load (f : contents) : exn + json :=
  match f with
  | Text j => inr j
  | Garbage => inl JSONDecodeError
  end.

(** [os.path.exists(path)]. *)
Definition os_path_exists (path : string) : M bool :=
  fun w => (bool_decide (is_Some (fs w !! path)), w).

(** [open(path, "r")]. *)
Definition open_read (path : string) : M (exn + contents) :=
  fun w => (match fs w !! path with
            | Some (File c) => inr c
            | Some Dir | None => inl OSError
            end, w).

(** [open(path, "w")] followed by [json.dump(data, f)]: the file is
    created or replaced, unless the path names a directory.  The text
    that [json.dump] writes is one that [json.load] parses back to [data]
    (a float is written in its shortest form that reads back exactly).
    Other causes of a failed write are not modelled: an empty path, a
    missing parent directory, permissions, a full disk.  None of them
    concerns the path that the application writes, [SAVE_PATH], a file
    name in the working directory, apart from permissions and the
    disk. *)
Definition open_write_dump (path : string) (data : json) : M (exn + unit) :=
  fun w => match fs w !! path with
           | Some Dir => (inl OSError, w)
           | Some (File _) | None =>
               (inr tt, mkWorld (clock w) (reads w)
                                (<[path := File (Text data)]> (fs w)) (stdout w))
           end.

(** Sequencing inside a [try] block: the first exception ends it. *)
Definition and_then {A B} (r : exn + A) (k : A -> exn + B) : exn + B :=
  match r with
  | inl e => inl e
  | inr a => k a
  end.

Definition load (save_path : string) (state : RawPetState) : M RawPetState :=
  found <- os_path_exists save_path ;;
  if found then
    f <- open_read save_path ;;
    match and_then (and_then f json_load) PetState_init with
    | inr loaded =>
        _ <- print (Loaded save_path) ;;
        ret loaded
    | inl e =>
        _ <- print (LoadFailed e) ;;
        ret state
    end
  else ret state.

Definition save (save_path : string) (state : PetState) : M unit :=
  r <- open_write_dump save_path (JObj (asdict state)) ;;
  match r with
  | inr _ => ret tt
  | inl e => print (SaveFailed e)
  end.

(** [v == x] for a value [v] read from JSON and a float [x]: numbers
    compare by value and [bool] is a subclass of [int]; no other value
    equals a float. *)
Definition py_eq_float (v : json) (x : Q) : bool :=
  match v with
  | JFloat q => Qeq_bool q x
  | JInt z => Qeq_bool (inject_Z z) x
  | JBool b => Qeq_bool (if b then 1 else 0) x
  | _ => false
  end.

Record Pet : Type := mkPet {
  save_path : string;
  state : RawPetState;
  _last_update : Q
}.

(** [Pet.__init__]. *)
Definition Pet_init (path : string) : M Pet :=
  let state := raw PetState_default in
  t0 <- time_time ;;
  state <- load path state ;;
  state <- (if py_eq_float (raw_last_level_update state) 0 then
              t <- time_time ;;
              ret (mkRaw (raw_hunger state) (raw_thirst state) (raw_happiness state)
                         (raw_level state) (JFloat t) (raw_is_neglected state))
            else ret state) ;;
  ret (mkPet path state t0).

(** ** app.py: drag and drop *)

(** [pygame.Rect]. *)
Record Rect : Type := mkRect {
  rect_left : Z;
  rect_top : Z;
  rect_width : Z;
  rect_height : Z
}.

(** [rect.collidepoint(pos)]: the right and bottom edges are outside. *)
Definition collidepoint (r : Rect) (pos : Z * Z) : bool :=
  ((rect_left r <=? fst pos) && (fst pos <? rect_left r + rect_width r) &&
   (rect_top r <=? snd pos) && (snd pos <? rect_top r + rect_height r))%Z.

(** The truth value of a [Rect]: false when its width or height is 0. *)
Definition rect_truthy (r : Rect) : bool :=
  (negb (rect_width r =? 0) && negb (rect_height r =? 0))%Z.

(** [rect.centerx]. *)
Definition rect_centerx (r : Rect) : Z := (rect_left r + rect_width r / 2)%Z.

(** The truth value of [self.dragged_emoji]: [None] and the empty string
    are false. *)
Definition str_truthy (o : option string) : bool :=
  match o with
  | Some s => negb (String.eqb s "")
  | None => false
  end.

Record Heart : Type := mkHeart {
  heart_x : Z;
  heart_y : Q;
  heart_age : Q;
  heart_lifespan : Q
}.

(** The attributes of [App] that [handle_events] uses.  [pet] is the
    state of [self.pet], whose save path is [settings.SAVE_PATH];
    [emoji_rects] lists the dictionary in its iteration order. *)
Record App : Type := mkApp {
  pet : PetState;
  dragged_emoji : option string;
  drag_pos : option (Z * Z);
  emoji_rects : list (string * Rect);
  pet_rect : option Rect;
  floating_hearts : list Heart
}.

Definition set_pet (p : PetState) (a : App) : App :=
  mkApp p (dragged_emoji a) (drag_pos a) (emoji_rects a) (pet_rect a) (floating_hearts a).
Definition set_drag (d : option string) (p : option (Z * Z)) (a : App) : App :=
  mkApp (pet a) d p (emoji_rects a) (pet_rect a) (floating_hearts a).
Definition set_floating_hearts (h : list Heart) (a : App) : App :=
  mkApp (pet a) (dragged_emoji a) (drag_pos a) (emoji_rects a) (pet_rect a) h.

(** The three hearts of one spawn: staggered by 100 ms, spread by 20
    pixels around the centre of the pet, each living 1.5 seconds. *)
Definition new_hearts (r : Rect) : list Heart :=
  map (fun i => mkHeart (rect_centerx r + (i - 1) * 20)%Z (inject_Z (rect_top r))
                        (- (inject_Z i * (1 # 10))) (3 # 2))
      [0; 1; 2]%Z.

Definition spawn_floating_hearts (a : App) : App :=
  match pet_rect a with
  | Some r =>
      if rect_truthy r then set_floating_hearts (floating_hearts a ++ new_hearts r) a
      else a
  | None => a
  end.

(** The loop over [self.emoji_rects.items()] with its [break]: the first
    region that contains the point. *)
Fixpoint first_hit (rects : list (string * Rect)) (pos : Z * Z) : option string :=
  match rects with
  | [] => None
  | (action_type, rect) :: rest =>
      if collidepoint rect pos then Some action_type else first_hit rest pos
  end.

Inductive Key : Type := K_ESCAPE | K_f | K_d | K_p | K_r | K_other.

Inductive Event : Type :=
| QUIT
| MOUSEBUTTONDOWN (pos : Z * Z)
| MOUSEMOTION (pos : Z * Z)
| MOUSEBUTTONUP (pos : Z * Z)
| KEYDOWN (key : Key)
| OTHER.

(** The action of a drop on the pet, lines 120-128. *)
Definition perform (action_type : string) (a : App) : M App :=
  if String.eqb action_type "feed" then
    p <- feed FEED_AMOUNT (pet a) ;;
    ret (spawn_floating_hearts (set_pet p a))
  else if String.eqb action_type "drink" then
    p <- drink FEED_AMOUNT (pet a) ;;
    ret (spawn_floating_hearts (set_pet p a))
  else if String.eqb action_type "play" then
    p <- play PLAY_AMOUNT (pet a) ;;
    ret (spawn_floating_hearts (set_pet p a))
  else ret a.

(** Lines 102-132: the mouse events.  At a release the drop is tested
    when [self.dragged_emoji] and [self.drag_pos] are true (a position is
    a pair, hence true when set) and [self.pet_rect] is true and contains
    [self.drag_pos]. *)
Definition handle_mouse (e : Event) (a : App) : M App :=
  match e with
  | MOUSEBUTTONDOWN pos =>
      match first_hit (emoji_rects a) pos with
      | Some action_type => ret (set_drag (Some action_type) (Some pos) a)
      | None => ret a
      end
  | MOUSEMOTION pos =>
      if str_truthy (dragged_emoji a) then ret (set_drag (dragged_emoji a) (Some pos) a)
      else ret a
  | MOUSEBUTTONUP _ =>
      a <- match dragged_emoji a, drag_pos a, pet_rect a with
           | Some action_type, Some at_pos, Some r =>
               if str_truthy (dragged_emoji a) && rect_truthy r && collidepoint r at_pos
               then perform action_type a
               else ret a
           | _, _, _ => ret a
           end ;;
      ret (set_drag None None a)
  | _ => ret a
  end.

(** Lines 135-149: the keyboard shortcuts.  The boolean is false when
    [handle_events] returns [False] at this event. *)
Definition handle_key (key : Key) (a : App) : M (bool * App) :=
  match key with
  | K_ESCAPE =>
      _ <- save SAVE_PATH (pet a) ;;
      ret (false, a)
  | K_f =>
      p <- feed FEED_AMOUNT (pet a) ;;
      ret (true, spawn_floating_hearts (set_pet p a))
  | K_d =>
      p <- drink FEED_AMOUNT (pet a) ;;
      ret (true, spawn_floating_hearts (set_pet p a))
  | K_p =>
      p <- play PLAY_AMOUNT (pet a) ;;
      ret (true, spawn_floating_hearts (set_pet p a))
  | K_r =>
      p <- reset (pet a) ;;
      ret (true, set_pet p a)
  | K_other => ret (true, a)
  end.

(** One turn of the loop over [pygame.event.get()]. *)
Definition handle_event (e : Event) (a : App) : M (bool * App) :=
  match e with
  | QUIT =>
      _ <- save SAVE_PATH (pet a) ;;
      ret (false, a)
  | KEYDOWN key => handle_key key a
  | _ =>
      a <- handle_mouse e a ;;
      ret (true, a)
  end.

(** [App.handle_events]: the result is what the method returns, with the
    attributes of the application after it. *)
Fixpoint handle_events (events : list Event) (a : App) : M (bool * App) :=
  match events with
  | [] => ret (true, a)
  | e :: rest =>
      r <- handle_event e a ;;
      if fst r then handle_events rest (snd r) else ret r
  end.

(** ** Vocabulary of the properties *)

(** The test of line 75 on the stats of [s]: every bar of the tick is at
    its worst value. *)
Definition all_bars_empty (s : PetState) : bool :=
  Qle_bool (py_max 0 (100 - hunger s)) 0 &&
  Qle_bool (py_max 0 (100 - thirst s)) 0 &&
  Qle_bool (happiness s) 0.

Definition some_bar_positive (s : PetState) : Prop :=
  0 < food_bar s \/ 0 < water_bar s \/ 0 < heart_bar s.

(** One more call of [time.time()] has been made. *)
Definition advance (w : World) : World :=
  mkWorld (clock w) (S (reads w)) (fs w) (stdout w).

(** [t] is a reading of the wall clock taken while the world went from
    [w] to [w']. *)
Definition read_during (w w' : World) (t : Q) : Prop :=
  exists n : nat, (reads w <= n < reads w')%nat /\ t = clock w n.

(** The mood resolver in the words of the specification: happy if all
    three bars are above 70; otherwise the first bar below 30 in the order
    food, water, heart; otherwise the mood of the minimum bar, a tie going
    to food before water before heart. *)
Definition mood_spec (s : PetState) : Mood :=
  let f := food_bar s in
  let w := water_bar s in
  let h := heart_bar s in
  if Qlt_bool 70 f && Qlt_bool 70 w && Qlt_bool 70 h then happy
  else if Qlt_bool f 30 then hungry
  else if Qlt_bool w 30 then thirsty
  else if Qlt_bool h 30 then sad
  else if Qle_bool f w && Qle_bool f h then hungry
  else if Qle_bool w h then thirsty
  else sad.

(** The contents of a save file that [load] cannot turn into a
    [PetState]: text that is no JSON, JSON that is no object, or an object
    with a key that is no field of [PetState]. *)
Inductive malformed : contents -> Prop :=
| malformed_text : malformed Garbage
| malformed_shape (j : json) :
    (forall kw, j <> JObj kw) -> malformed (Text j)
| malformed_field (kw : gmap string json) (k : string) (v : json) :
    kw !! k = Some v -> k ∉ field_names -> malformed (Text (JObj kw)).

(** The world after a line has been printed. *)
Definition printed (m : message) (w : World) : World :=
  mkWorld (clock w) (reads w) (fs w) (stdout w ++ [m]).

(** A drag as a sequence of events: a press at [down], the moves, a
    release at [up]. *)
Definition drag (down : Z * Z) (moves : list (Z * Z)) (up : Z * Z) : list Event :=
  MOUSEBUTTONDOWN down :: map MOUSEMOTION moves ++ [MOUSEBUTTONUP up].

(** The position that [self.drag_pos] holds at the release: the position
    of the press, replaced by each move in turn. *)
Definition tracked (down : Z * Z) (moves : list (Z * Z)) : Z * Z :=
  fold_left (fun _ pos => pos) moves down.

(** ** app.py: the floating hearts *)

(** [a == b] on two hearts: dictionaries with the same keys compare by
    their values. *)
Definition heart_eqb (a b : Heart) : bool :=
  (heart_x a =? heart_x b)%Z && Qeq_bool (heart_y a) (heart_y b) &&
  Qeq_bool (heart_age a) (heart_age b) &&
  Qeq_bool (heart_lifespan a) (heart_lifespan b).

(** Lines 176-181: the heart ages by [dt_seconds]; once its delay has
    passed it floats up 50 pixels per second. *)
Definition age_heart (dt_seconds : Q) (heart : Heart) : Heart :=
  let age := heart_age heart + dt_seconds in
  mkHeart (heart_x heart)
          (if Qlt_bool 0 age then heart_y heart - 50 * dt_seconds else heart_y heart)
          age (heart_lifespan heart).

(** The test of line 184. *)
Definition expired (heart : Heart) : bool :=
  Qlt_bool (heart_lifespan heart) (heart_age heart).

(** [l.remove(x)] on a part of the list: the first element equal to [x]
    is taken out; [None] when no element equals [x]. *)
Fixpoint list_remove (x : Heart) (l : list Heart) : option (list Heart) :=
  match l with
  | [] => None
  | y :: rest =>
      if heart_eqb y x then Some rest
      else match list_remove x rest with
           | Some rest' => Some (y :: rest')
           | None => None
           end
  end.

(** The loop of [update_floating_hearts] over the copy of the list.  The
    hearts are mutated in place, so the live list is [kept ++ pending]:
    [kept] holds the hearts already visited and still there, [pending] the
    ones to come, the visited heart at its head.  [remove(heart)] takes
    out the first element of the live list that equals the visited heart:
    an equal heart of [kept] if there is one, the visited heart itself
    otherwise. *)
Fixpoint update_loop (dt_seconds : Q) (kept pending : list Heart) : list Heart :=
  match pending with
  | [] => kept
  | heart :: rest =>
      let heart := age_heart dt_seconds heart in
      if expired heart then
        match list_remove heart kept with
        | Some kept' => update_loop dt_seconds (kept' ++ [heart]) rest
        | None => update_loop dt_seconds kept rest
        end
      else update_loop dt_seconds (kept ++ [heart]) rest
  end.

(** [App.update_floating_hearts]. *)
Definition update_floating_hearts (dt_seconds : Q) (a : App) : App :=
  set_floating_hearts (update_loop dt_seconds [] (floating_hearts a)) a.

(** ** weather.py: [PythonWeatherProvider._map_icon] *)

(** [str.lower()] and [needle in s], on ASCII text. *)
Definition lower_char (c : Ascii.ascii) : Ascii.ascii :=
  let n := Ascii.nat_of_ascii c in
  if ((65 <=? n) && (n <=? 90))%nat then Ascii.ascii_of_nat (n + 32) else c.

Fixpoint lower (s : string) : string :=
  match s with
  | EmptyString => EmptyString
  | String c rest => String (lower_char c) (lower rest)
  end.

Fixpoint contains (needle s : string) : bool :=
  if String.prefix needle s then true
  else match s with
       | EmptyString => false
       | String _ rest => contains needle rest
       end.

Definition _map_icon (main : string) : string :=
  let m := lower main in
  if contains "rain" m then "rain"
  else if contains "snow" m then "snow"
  else if contains "cloud" m then "clouds"
  else if contains "mist" m || contains "fog" m || contains "haze" m then "mist"
  else "clear".

(** The icon keys: the annotation of [Weather.icon_key], the keys of
    [Sprites.weather] and of the emoji map of [draw_weather]. *)
Definition icon_keys : list string :=
  ["clear"; "clouds"; "rain"; "snow"; "mist"]%string.

(** ** reset_save.py *)

(** The dictionary written by [reset_save], built at time [t]. *)
Definition default_state (t : Q) : gmap string json :=
  <["hunger" := JFloat 0]>
  (<["thirst" := JFloat 0]>
  (<["happiness" := JFloat 100]>
  (<["level" := JInt 1]>
  (<["last_level_update" := JFloat t]>
  (<["is_neglected" := JBool false]> ∅))))).

(** [reset_save()], given the line that [input] returns.  Lines 22-36
    read the current save inside a [try] block only to print it; the
    lines printed by this script are not recorded in [stdout].  The write
    is outside any [try]: its exception reaches the caller. *)
Definition reset_save (confirm : string) : M (exn + unit) :=
  t <- time_time ;;
  let default_state := default_state t in
  if negb (String.eqb (lower confirm) "y") then ret (inr tt)
  else open_write_dump SAVE_PATH (JObj default_state).

(** ** More vocabulary *)

(** The events at which [handle_events] returns [False]. *)
Definition is_quit (e : Event) : bool :=
  match e with
  | QUIT | KEYDOWN K_ESCAPE => true
  | _ => false
  end.

(** The invariant of the data model: stats within [0, 100], level at
    least 1. *)
Definition healthy (s : PetState) : Prop := in_range s /\ (1 <= level s)%Z.

(** The steps of the main loop: it handles the events of the frame, it
    ticks the pet by the milliseconds of the frame at the configured decay
    rate, or it does something that leaves the state of the pet alone
    (the autosave, the animation of the hearts, the drawing, which sets
    the hit regions). *)
Inductive frame_step : App * World -> App * World -> Prop :=
| step_events (events : list Event) (a : App) (w : World) :
    frame_step (a, w)
               (snd (fst (handle_events events a w)), snd (handle_events events a w))
| step_tick (dt_ms : Z) (a : App) (w : World) :
    (0 <= dt_ms)%Z ->
    frame_step (a, w)
               (set_pet (fst (tick (inject_Z dt_ms / 1000 / 60) STAT_DECAY_PER_MIN (pet a) w)) a,
                snd (tick (inject_Z dt_ms / 1000 / 60) STAT_DECAY_PER_MIN (pet a) w))
| step_other (a a' : App) (w w' : World) :
    pet a' = pet a -> frame_step (a, w) (a', w').

Inductive frame_steps : App * World -> App * World -> Prop :=
| steps_none (x : App * World) : frame_steps x x
| steps_more (x y z : App * World) :
    frame_steps x y -> frame_step y z -> frame_steps x z.

(** What one event can do to the pet: nothing, one of the three actions
    with its configured amount, or a reset. *)
Definition touched (s s' : PetState) : Prop :=
  s' = s \/
  s' = set_hunger (py_max 0 (hunger s - FEED_AMOUNT)) s \/
  s' = set_thirst (py_max 0 (thirst s - FEED_AMOUNT)) s \/
  s' = set_happiness (py_min 100 (happiness s + PLAY_AMOUNT)) s \/
  exists t, s' = set_last_level_update t PetState_default.

(** * Properties *)

(** ** The built-ins *)

Lemma py_max_l a b : a <= py_max a b.
Proof. unfold py_max. destruct (Qlt_le_dec a b); lra. Qed.

Lemma py_max_r a b : b <= py_max a b.
Proof. unfold py_max. destruct (Qlt_le_dec a b); lra. Qed.

Lemma py_max_lub a b c : a <= c -> b <= c -> py_max a b <= c.
Proof. unfold py_max. destruct (Qlt_le_dec a b); lra. Qed.

Lemma py_min_l a b : py_min a b <= a.
Proof. unfold py_min. destruct (Qlt_le_dec b a); lra. Qed.

Lemma py_min_r a b : py_min a b <= b.
Proof. unfold py_min. destruct (Qlt_le_dec b a); lra. Qed.

Lemma py_min_glb a b c : c <= a -> c <= b -> c <= py_min a b.
Proof. unfold py_min. destruct (Qlt_le_dec b a); lra. Qed.

Lemma Qle_bool_true a b : Qle_bool a b = true <-> a <= b.
Proof. apply Qle_bool_iff. Qed.

Lemma Qle_bool_false a b : Qle_bool a b = false <-> b < a.
Proof.
  split; intros H.
  - apply Qnot_le_lt. intros Hle. apply Qle_bool_iff in Hle. congruence.
  - destruct (Qle_bool a b) eqn:E; [|reflexivity].
    apply Qle_bool_iff in E. lra.
Qed.

Lemma Qlt_bool_true a b : Qlt_bool a b = true <-> a < b.
Proof.
  unfold Qlt_bool. rewrite negb_true_iff. apply Qle_bool_false.
Qed.

Lemma Qlt_bool_false a b : Qlt_bool a b = false <-> b <= a.
Proof.
  unfold Qlt_bool. rewrite negb_false_iff. apply Qle_bool_true.
Qed.

(** On a non-negative float [int] is the floor. *)
Lemma py_int_floor x : 0 <= x -> py_int x = Qfloor x.
Proof.
  destruct x as [n d]. unfold Qle, py_int, Qfloor. simpl. intros H.
  apply Z.quot_div_nonneg; lia.
Qed.

(** ** The action handlers *)

Lemma feed_state amount s w :
  fst (feed amount s w) = set_hunger (py_max 0 (hunger s - amount)) s.
Proof. reflexivity. Qed.

Lemma drink_state amount s w :
  fst (drink amount s w) = set_thirst (py_max 0 (thirst s - amount)) s.
Proof. reflexivity. Qed.

Lemma play_state amount s w :
  fst (play amount s w) = set_happiness (py_min 100 (happiness s + amount)) s.
Proof. reflexivity. Qed.

(** A negative amount is clamped on one side only: feeding -50 at hunger
    80 gives hunger 130. *)
Lemma feed_negative_amount_leaves_range :
  let s := mkPetState 80 0 100 1 0 false in
  let w := mkWorld (fun _ => 0) 0 ∅ [] in
  in_range s /\ ~ in_range (fst (feed (-50) s w)).
Proof.
  cbv zeta. split.
  - unfold in_range; cbn. repeat split; lra.
  - rewrite feed_state. unfold in_range. cbn. intros [[_ H] _].
    vm_compute in H. apply H. reflexivity.
Qed.

(** C1, amended: from stats within [0,100], an action with a non-negative
    amount, however large, leaves hunger, thirst and happiness within
    [0,100]; for any amount at all the handler clamps its own side: [feed]
    and [drink] keep their stat at 0 or above, [play] keeps happiness at
    100 or below. *)
Theorem actions_clamp amount s w :
  in_range s ->
  (0 <= amount ->
   in_range (fst (feed amount s w)) /\
   in_range (fst (drink amount s w)) /\
   in_range (fst (play amount s w))) /\
  (0 <= hunger (fst (feed amount s w)) /\
   0 <= thirst (fst (drink amount s w)) /\
   happiness (fst (play amount s w)) <= 100).
Proof.
  intros [[Hh0 Hh1] [[Ht0 Ht1] [Hp0 Hp1]]].
  rewrite feed_state, drink_state, play_state. split.
  - intros Ha. unfold in_range; cbn.
    repeat split; try assumption;
      first [ apply py_max_l | apply py_max_lub; lra
            | apply py_min_l | apply py_min_glb; lra ].
  - cbn. repeat split; [apply py_max_l | apply py_max_l | apply py_min_l].
Qed.

Lemma actions_clamp_witness :
  in_range (fst (feed 25 PetState_default (mkWorld (fun _ => 0) 0 ∅ []))).
Proof.
  apply (actions_clamp 25 PetState_default (mkWorld (fun _ => 0) 0 ∅ [])).
  - unfold in_range; cbn. repeat split; lra.
  - lra.
Defined.

(** ** [Pet.tick], phase by phase *)

Lemma tick_neglect_eq s w :
  tick_neglect s w =
  if is_neglected s && negb (all_bars_empty s)
  then (set_last_level_update (clock w (reads w))
          (set_is_neglected (all_bars_empty s) s), advance w)
  else (set_is_neglected (all_bars_empty s) s, w).
Proof.
  unfold tick_neglect, all_bars_empty. cbn.
  destruct (is_neglected s && negb _); reflexivity.
Qed.

Lemma tick_level_eq s w :
  let now := clock w (reads w) in
  let seconds := now - last_level_update s in
  tick_level s w =
  (if Qle_bool 86400 seconds
   then set_last_level_update now
          (set_level (if is_neglected s
                      then Z.max 1 (level s - py_int (seconds / 86400))
                      else (level s + py_int (seconds / 86400))%Z) s)
   else s, advance w).
Proof.
  cbv zeta. unfold tick_level, bind, time_time, ret. cbn.
  destruct (Qle_bool 86400 _); [destruct (is_neglected s)|]; reflexivity.
Qed.

Lemma tick_eq m r s w :
  tick m r s w =
  tick_level (fst (tick_neglect (tick_decay m r s) w))
             (snd (tick_neglect (tick_decay m r s) w)).
Proof.
  unfold tick, bind. destruct (tick_neglect _ w); reflexivity.
Qed.

Lemma tick_neglect_stats s w :
  let s' := fst (tick_neglect s w) in
  hunger s' = hunger s /\ thirst s' = thirst s /\
  happiness s' = happiness s /\ level s' = level s /\
  is_neglected s' = all_bars_empty s.
Proof.
  cbv zeta. rewrite tick_neglect_eq.
  destruct (is_neglected s && negb _); cbn; repeat split.
Qed.

Lemma tick_level_stats s w :
  let s' := fst (tick_level s w) in
  hunger s' = hunger s /\ thirst s' = thirst s /\
  happiness s' = happiness s /\ is_neglected s' = is_neglected s.
Proof.
  cbv zeta. rewrite tick_level_eq. cbn.
  destruct (Qle_bool 86400 _); cbn; repeat split.
Qed.

(** What a tick leaves in the three stats and in the flag. *)
Lemma tick_stats m r s w :
  let s' := fst (tick m r s w) in
  hunger s' = py_min 100 (hunger s + r * m) /\
  thirst s' = py_min 100 (thirst s + r * m) /\
  happiness s' = py_max 0 (happiness s - r * m) /\
  is_neglected s' = all_bars_empty s'.
Proof.
  cbv zeta. rewrite tick_eq.
  destruct (tick_level_stats (fst (tick_neglect (tick_decay m r s) w))
                             (snd (tick_neglect (tick_decay m r s) w)))
    as (Hh & Ht & Hp & Hn).
  destruct (tick_neglect_stats (tick_decay m r s) w) as (Hh' & Ht' & Hp' & _ & Hn').
  cbv zeta in *.
  unfold all_bars_empty at 1.
  rewrite Hh, Ht, Hp, Hn, Hh', Ht', Hp', Hn'. repeat split.
Qed.

(** ** Decay keeps the stats in range *)

(** With a negative decay rate the stats move the other way, past the
    side that [tick] does not clamp. *)
Lemma tick_negative_rate_leaves_range :
  let w := mkWorld (fun _ => 0) 0 ∅ [] in
  in_range PetState_default /\ 0 <= 1 /\
  ~ in_range (fst (tick 1 (-200) PetState_default w)).
Proof.
  cbv zeta. split; [|split].
  - unfold in_range; cbn. repeat split; lra.
  - lra.
  - intros [[H _] _]. vm_compute in H. apply H. reflexivity.
Qed.

(** C5, amended: for stats within [0,100], any elapsed_minutes >= 0 and
    any decay_rate >= 0, after [tick] the hunger, thirst and happiness are
    within [0,100]; hunger and thirst are the old value plus
    decay_rate * elapsed_minutes clamped to at most 100, happiness is the
    old value minus the same delta clamped to at least 0. *)
Theorem tick_keeps_range m r s w :
  in_range s -> 0 <= m -> 0 <= r ->
  let s' := fst (tick m r s w) in
  in_range s' /\
  hunger s' = py_min 100 (hunger s + r * m) /\
  thirst s' = py_min 100 (thirst s + r * m) /\
  happiness s' = py_max 0 (happiness s - r * m).
Proof.
  intros [[Hh0 Hh1] [[Ht0 Ht1] [Hp0 Hp1]]] Hm Hr. cbv zeta.
  destruct (tick_stats m r s w) as (Hh & Ht & Hp & _). cbv zeta in *.
  assert (0 <= r * m) by (apply Qmult_le_0_compat; assumption).
  split; [|repeat split; assumption].
  unfold in_range. rewrite Hh, Ht, Hp.
  repeat split;
    first [ apply py_min_l | apply py_min_glb; lra
          | apply py_max_l | apply py_max_lub; lra ].
Qed.

Lemma tick_keeps_range_witness :
  in_range (fst (tick 1 STAT_DECAY_PER_MIN PetState_default
                      (mkWorld (fun _ => 0) 0 ∅ []))).
Proof.
  apply (tick_keeps_range 1 STAT_DECAY_PER_MIN PetState_default
                          (mkWorld (fun _ => 0) 0 ∅ [])).
  - unfold in_range; cbn. repeat split; lra.
  - lra.
  - vm_compute. discriminate.
Defined.

(** ** The neglect flag *)

Lemma all_bars_empty_iff s :
  all_bars_empty s = true <->
  100 <= hunger s /\ 100 <= thirst s /\ happiness s <= 0.
Proof.
  unfold all_bars_empty. rewrite !andb_true_iff, !Qle_bool_true.
  unfold py_max.
  destruct (Qlt_le_dec 0 (100 - hunger s)), (Qlt_le_dec 0 (100 - thirst s));
    split; intros H; repeat split; lra.
Qed.

(** C3: after every [tick], [is_neglected] is true exactly when the three
    bars are at their worst (food_bar <= 0, water_bar <= 0 and
    heart_bar <= 0, that is hunger >= 100, thirst >= 100 and
    happiness <= 0); a bar above 0 after the tick makes it false. *)
Theorem tick_neglect_invariant m r s w :
  let s' := fst (tick m r s w) in
  (is_neglected s' = true <->
   food_bar s' <= 0 /\ water_bar s' <= 0 /\ heart_bar s' <= 0) /\
  (is_neglected s' = true <->
   100 <= hunger s' /\ 100 <= thirst s' /\ happiness s' <= 0) /\
  (some_bar_positive s' -> is_neglected s' = false).
Proof.
  cbv zeta. destruct (tick_stats m r s w) as (_ & _ & _ & Hn). cbv zeta in Hn.
  rewrite Hn, all_bars_empty_iff.
  unfold some_bar_positive, food_bar, water_bar, heart_bar.
  split; [|split].
  - split; intros H; repeat split; lra.
  - reflexivity.
  - intros Hpos. destruct (all_bars_empty _) eqn:E; [|reflexivity].
    apply all_bars_empty_iff in E. lra.
Qed.

Lemma tick_neglect_invariant_witness :
  is_neglected (fst (tick 1 STAT_DECAY_PER_MIN PetState_default
                          (mkWorld (fun _ => 0) 0 ∅ []))) = false.
Proof.
  apply (tick_neglect_invariant 1 STAT_DECAY_PER_MIN PetState_default
                                (mkWorld (fun _ => 0) 0 ∅ [])).
  left. vm_compute. reflexivity.
Defined.

(** ** Levelling at a day boundary *)

Lemma tick_decay_rest m r s :
  level (tick_decay m r s) = level s /\
  last_level_update (tick_decay m r s) = last_level_update s /\
  is_neglected (tick_decay m r s) = is_neglected s.
Proof. repeat split. Qed.

(** The state and the world at line 82, where the level check starts. *)
Lemma tick_at_level_check m r s w :
  let mid := tick_neglect (tick_decay m r s) w in
  let recovered := is_neglected s && negb (is_neglected (fst mid)) in
  level (fst mid) = level s /\
  last_level_update (fst mid) =
    (if recovered then clock w (reads w) else last_level_update s) /\
  clock (snd mid) = clock w /\
  reads (snd mid) = (if recovered then S (reads w) else reads w).
Proof.
  cbv zeta. rewrite tick_neglect_eq.
  change (is_neglected (tick_decay m r s)) with (is_neglected s).
  destruct (is_neglected s); destruct (all_bars_empty (tick_decay m r s));
    cbn; repeat split.
Qed.

Lemma tick_result m r s w :
  let mid := tick_neglect (tick_decay m r s) w in
  let now := clock (snd mid) (reads (snd mid)) in
  let seconds := now - last_level_update (fst mid) in
  fst (tick m r s w) =
    (if Qle_bool 86400 seconds
     then set_last_level_update now
            (set_level (if is_neglected (fst mid)
                        then Z.max 1 (level (fst mid) - py_int (seconds / 86400))
                        else (level (fst mid) + py_int (seconds / 86400))%Z)
                       (fst mid))
     else fst mid) /\
  snd (tick m r s w) = advance (snd mid).
Proof.
  cbv zeta. rewrite tick_eq, tick_level_eq. split; reflexivity.
Qed.

Lemma days_nonneg x : 86400 <= x -> 0 <= x / 86400.
Proof.
  intros H. apply Qle_shift_div_l; lra.
Qed.

Lemma Qfloor_nonneg x : 0 <= x -> (0 <= Qfloor x)%Z.
Proof.
  intros H. change 0%Z with (Qfloor 0). apply Qfloor_resp_le, H.
Qed.

(** A pet whose stored flag is false, but which the decay of this very
    tick takes to its worst on all three bars, is neglected at the level
    check: two days late, it loses two levels instead of gaining them. *)
Lemma tick_newly_neglected_loses_levels :
  let s := mkPetState 99 99 1 5 1000 false in
  let w := mkWorld (fun _ => 173800) 0 ∅ [] in
  let s' := fst (tick 2 (1 # 2) s w) in
  is_neglected s = false /\
  clock w (reads w) - last_level_update s == 172800 /\
  is_neglected s' = true /\
  level s' = 3%Z /\ level s' <> (level s + 2)%Z.
Proof.
  cbv zeta. split; [reflexivity|]. split; [reflexivity|].
  split; [vm_compute; reflexivity|]. split; [vm_compute; reflexivity|].
  intros H. vm_compute in H. discriminate H.
Qed.

(** C2, amended: when a day or more has passed at the level check of a
    [tick] (now - last_level_update >= 86400, on the values the check
    reads), days_elapsed is the floor of the quotient by 86400, the level
    becomes max(1, level - days_elapsed) if the pet is neglected as this
    tick has just recomputed it and level + days_elapsed otherwise, and
    last_level_update becomes now.  In particular, with last_level_update
    exactly 172800 seconds in the past, a pet that this tick finds not
    neglected gains exactly 2 levels (at the check, and equally for the
    stored field of a pet whose flag is false before the tick and still
    false after it), while a pet whose flag was false and which this tick
    finds neglected goes to max(1, level - 2); and a pet at level 1 that
    this tick finds neglected stays at level 1. *)
Theorem tick_day_boundary m r s w :
  let mid := tick_neglect (tick_decay m r s) w in
  let now := clock (snd mid) (reads (snd mid)) in
  let seconds := now - last_level_update (fst mid) in
  let days_elapsed := Qfloor (seconds / 86400) in
  let s' := fst (tick m r s w) in
  (86400 <= seconds ->
   level s' = (if is_neglected s'
               then Z.max 1 (level s - days_elapsed)
               else level s + days_elapsed)%Z /\
   last_level_update s' = now) /\
  (is_neglected s' = false -> seconds == 172800 ->
   level s' = (level s + 2)%Z) /\
  (is_neglected s = false -> is_neglected s' = false ->
   clock w (reads w) - last_level_update s == 172800 ->
   level s' = (level s + 2)%Z) /\
  (level s = 1%Z -> is_neglected s' = true -> 86400 <= seconds ->
   level s' = 1%Z) /\
  (is_neglected s = false -> is_neglected s' = true ->
   clock w (reads w) - last_level_update s == 172800 ->
   level s' = Z.max 1 (level s - 2)).
Proof.
  cbv zeta.
  destruct (tick_result m r s w) as [Hs _].
  destruct (tick_at_level_check m r s w) as (Hl & Hu & Hc & Hr).
  cbv zeta in *.
  set (mid := tick_neglect (tick_decay m r s) w) in *.
  set (now := clock (snd mid) (reads (snd mid))) in *.
  set (seconds := now - last_level_update (fst mid)) in *.
  assert (Hn : is_neglected (fst (tick m r s w)) = is_neglected (fst mid)).
  { rewrite Hs. destruct (Qle_bool 86400 seconds); reflexivity. }
  assert (Hday : 86400 <= seconds ->
            level (fst (tick m r s w)) =
              (if is_neglected (fst (tick m r s w))
               then Z.max 1 (level s - Qfloor (seconds / 86400))
               else level s + Qfloor (seconds / 86400))%Z /\
            last_level_update (fst (tick m r s w)) = now).
  { intros Hge. rewrite Hn, Hs.
    apply Qle_bool_true in Hge as Hb. rewrite Hb. cbn.
    rewrite Hl, (py_int_floor _ (days_nonneg _ Hge)). split; reflexivity. }
  assert (Htwo : is_neglected (fst (tick m r s w)) = false ->
            seconds == 172800 ->
            level (fst (tick m r s w)) = (level s + 2)%Z).
  { intros Hf Heq.
    destruct Hday as [Hlev _]; [rewrite Heq; lra|].
    rewrite Hlev, Hf.
    assert (Hq : seconds / 86400 == 2) by (rewrite Heq; reflexivity).
    rewrite Hq. reflexivity. }
  split; [exact Hday|]. split; [exact Htwo|]. split; [|split].
  - intros Hpre Hpost Heq. apply Htwo; [exact Hpost|].
    unfold seconds, now. rewrite Hu, Hc, Hr, Hpre. cbn. exact Heq.
  - intros H1 Ht Hge. destruct (Hday Hge) as [Hlev _].
    rewrite Hlev, Ht, H1.
    pose proof (Qfloor_nonneg _ (days_nonneg _ Hge)). lia.
  - intros Hpre Hpost Heq.
    assert (Hsec : seconds == 172800).
    { unfold seconds, now. rewrite Hu, Hc, Hr, Hpre. cbn. exact Heq. }
    destruct Hday as [Hlev _]; [rewrite Hsec; lra|].
    rewrite Hlev, Hpost.
    assert (Hq : seconds / 86400 == 2) by (rewrite Hsec; reflexivity).
    rewrite Hq. reflexivity.
Qed.

Lemma tick_day_boundary_witness :
  level (fst (tick 1 STAT_DECAY_PER_MIN
                   (mkPetState 0 0 100 5 1000 false)
                   (mkWorld (fun _ => 173800) 0 ∅ []))) = 7%Z.
Proof.
  refine (proj1 (proj2 (proj2
            (tick_day_boundary 1 STAT_DECAY_PER_MIN
               (mkPetState 0 0 100 5 1000 false)
               (mkWorld (fun _ => 173800) 0 ∅ [])))) _ _ _).
  - reflexivity.
  - vm_compute. reflexivity.
  - vm_compute. reflexivity.
Defined.

(** ** Recovery from neglect *)

Lemma some_bar_positive_iff s :
  some_bar_positive s <-> all_bars_empty s = false.
Proof.
  unfold some_bar_positive, food_bar, water_bar, heart_bar. split.
  - intros H. destruct (all_bars_empty s) eqn:E; [|reflexivity].
    apply all_bars_empty_iff in E. lra.
  - intros E.
    destruct (Qlt_le_dec 0 (100 - hunger s)); [left; assumption|].
    destruct (Qlt_le_dec 0 (100 - thirst s)); [right; left; assumption|].
    destruct (Qlt_le_dec 0 (happiness s)); [right; right; assumption|].
    assert (all_bars_empty s = true) by (apply all_bars_empty_iff; lra).
    congruence.
Qed.

(** A tick that finds a neglected pet recovered sets the level timer to a
    clock reading of its own: the one of line 79, or the one of line 82
    when a whole day lies between the two. *)
Lemma tick_recovery m r s w :
  is_neglected s = true ->
  all_bars_empty (tick_decay m r s) = false ->
  let s' := fst (tick m r s w) in
  let t := clock w (reads w) in
  let now := clock w (S (reads w)) in
  is_neglected s' = false /\
  last_level_update s' = (if Qle_bool 86400 (now - t) then now else t) /\
  read_during w (snd (tick m r s w)) (last_level_update s').
Proof.
  intros Hpre Hpost. cbv zeta.
  destruct (tick_result m r s w) as [Hs Hw]. cbv zeta in *.
  rewrite tick_neglect_eq in Hs, Hw.
  change (is_neglected (tick_decay m r s)) with (is_neglected s) in Hs, Hw.
  rewrite Hpre, Hpost in Hs, Hw. cbn in Hs, Hw.
  rewrite Hs, Hw. unfold read_during.
  destruct (Qle_bool 86400 _); cbn.
  - repeat split. exists (S (reads w)). split; [lia|reflexivity].
  - repeat split. exists (reads w). split; [lia|reflexivity].
Qed.

(** Playing raises the heart bar above 0, but a tick whose decay takes
    the gain back finds the pet still neglected and leaves the timer. *)
Lemma tick_after_action_still_neglected :
  let s := mkPetState 100 100 0 1 500 true in
  let w := mkWorld (fun _ => 1000) 0 ∅ [] in
  let s1 := fst (play 25 s w) in
  let s' := fst (tick 1500 STAT_DECAY_PER_MIN s1 (snd (play 25 s w))) in
  is_neglected s = true /\ 0 < heart_bar s1 /\
  is_neglected s' = true /\ last_level_update s' = 500.
Proof.
  cbv zeta. repeat split.
Qed.

(** C4, amended: a tick that takes the pet from neglected to not
    neglected sets last_level_update, within that same call, to a reading
    of the wall clock taken by the call.  If is_neglected is true and an
    action then raises a bar above 0, the next tick sets is_neglected to
    false and resets last_level_update in this way, provided that some bar
    is still above 0 after the decay of that tick. *)
Theorem recovery_resets_timer :
  (forall m r s w,
     is_neglected s = true -> is_neglected (fst (tick m r s w)) = false ->
     read_during w (snd (tick m r s w)) (last_level_update (fst (tick m r s w)))) /\
  (forall act, In act [feed; drink; play] ->
   forall amount s w0 m r w,
     is_neglected s = true ->
     let s1 := fst (act amount s w0) in
     some_bar_positive (tick_decay m r s1) ->
     is_neglected (fst (tick m r s1 w)) = false /\
     read_during w (snd (tick m r s1 w)) (last_level_update (fst (tick m r s1 w)))).
Proof.
  split.
  - intros m r s w Hpre Hpost.
    destruct (tick_stats m r s w) as (Hh & Ht & Hp & Hn). cbv zeta in *.
    assert (Hd : all_bars_empty (tick_decay m r s) = false).
    { rewrite <- Hpost, Hn. unfold all_bars_empty. rewrite Hh, Ht, Hp. reflexivity. }
    apply (tick_recovery m r s w Hpre Hd).
  - intros act Hact amount s w0 m r w Hpre s1 Hpos.
    assert (Hpre1 : is_neglected s1 = true).
    { subst s1. cbn in Hact.
      destruct Hact as [<- | [<- | [<- | []]]]; exact Hpre. }
    apply some_bar_positive_iff in Hpos.
    destruct (tick_recovery m r s1 w Hpre1 Hpos) as (H1 & _ & H3).
    split; assumption.
Qed.

Lemma recovery_resets_timer_witness :
  let s := mkPetState 100 100 0 1 500 true in
  let w := mkWorld (fun _ => 1000) 0 ∅ [] in
  is_neglected (fst (tick 1 STAT_DECAY_PER_MIN (fst (play 25 s w)) w)) = false.
Proof.
  cbv zeta.
  apply (proj2 recovery_resets_timer play
               (or_intror (or_intror (or_introl eq_refl)))
               25 (mkPetState 100 100 0 1 500 true)
               (mkWorld (fun _ => 1000) 0 ∅ []) 1 STAT_DECAY_PER_MIN).
  - reflexivity.
  - right; right. vm_compute. reflexivity.
Defined.

(** ** The mood resolver *)

Lemma Qlt_bool_spec a b : reflect (a < b) (Qlt_bool a b).
Proof.
  destruct (Qlt_bool a b) eqn:E; constructor.
  - apply Qlt_bool_true, E.
  - apply Qlt_bool_false in E. lra.
Qed.

Lemma Qle_bool_spec a b : reflect (a <= b) (Qle_bool a b).
Proof.
  destruct (Qle_bool a b) eqn:E; constructor.
  - apply Qle_bool_true, E.
  - apply Qle_bool_false in E. lra.
Qed.

Lemma Qeq_bool_cases a b :
  (Qeq_bool a b = true /\ a == b) \/
  (Qeq_bool a b = false /\ a < b) \/
  (Qeq_bool a b = false /\ b < a).
Proof.
  destruct (Qeq_bool a b) eqn:E.
  - left. split; [reflexivity|]. apply Qeq_bool_iff, E.
  - right. destruct (Q_dec a b) as [[H | H] | H].
    + left. split; [reflexivity | exact H].
    + right. split; [reflexivity | exact H].
    + apply Qeq_bool_iff in H. congruence.
Qed.

(** Case analysis on the comparisons of the goal, innermost [min] first. *)
Ltac case_min :=
  repeat match goal with
  | |- context [Qlt_le_dec ?a ?b] =>
      lazymatch constr:((a, b)) with
      | context [Qlt_le_dec _ _] => fail
      | _ => destruct (Qlt_le_dec a b)
      end
  end.

Ltac case_tests :=
  case_min;
  repeat match goal with
  | |- context [Qlt_bool ?a ?b] => destruct (Qlt_bool_spec a b)
  | |- context [Qle_bool ?a ?b] => destruct (Qle_bool_spec a b)
  | |- context [Qeq_bool ?a ?b] =>
      destruct (Qeq_bool_cases a b) as [[-> ?] | [[-> ?] | [-> ?]]]
  end; cbn [andb].

Lemma mood_refines_spec s : mood s = mood_spec s.
Proof.
  unfold mood, mood_spec, food_bar, water_bar, heart_bar, py_min3, py_min.
  case_tests; try reflexivity; exfalso; lra.
Qed.

(** C6: [mood] is happy if all three bars are above 70; otherwise the
    first bar below 30 in the order food, water, heart decides (hungry,
    thirsty, sad); otherwise the minimum bar decides, a tie going to food
    before water before heart.  Bars 71, 71, 71 give happy; bars 70, 71,
    71 (food, water, heart) give hungry. *)
Theorem mood_resolver :
  (forall s, mood s = mood_spec s) /\
  (forall s, food_bar s == 71 -> water_bar s == 71 -> heart_bar s == 71 ->
             mood s = happy) /\
  (forall s, food_bar s == 70 -> water_bar s == 71 -> heart_bar s == 71 ->
             mood s = hungry).
Proof.
  split; [exact mood_refines_spec|].
  split; intros s Hf Hw Hh;
    unfold mood; unfold food_bar, water_bar, heart_bar in Hf, Hw, Hh;
    unfold py_min3, py_min;
    case_tests; try reflexivity; exfalso; lra.
Qed.

Lemma mood_resolver_witness :
  mood (mkPetState 29 29 71 1 0 false) = happy /\
  mood (mkPetState 30 29 71 1 0 false) = hungry.
Proof.
  split.
  - apply (proj1 (proj2 mood_resolver)); reflexivity.
  - apply (proj2 (proj2 mood_resolver)); reflexivity.
Defined.

(** ** Persistence *)

Lemma asdict_fields s : map_Forall (fun k _ => k ∈ field_names) (asdict s).
Proof.
  unfold asdict, field_names.
  repeat (apply map_Forall_insert_2; [set_solver|]).
  apply map_Forall_empty.
Qed.

Lemma PetState_init_asdict s : PetState_init (JObj (asdict s)) = inr (raw s).
Proof.
  unfold PetState_init.
  destruct (decide _) as [_ | Hn]; [|destruct (Hn (asdict_fields s))].
  unfold asdict, raw. by simplify_map_eq.
Qed.

Lemma typed_raw s : typed (raw s) = Some s.
Proof. destruct s; reflexivity. Qed.

Lemma PetState_init_malformed j : malformed (Text j) -> PetState_init j = inl TypeError.
Proof.
  intros H. inversion H as [| j' Hshape | kw k v Hk Hnot]; subst.
  - destruct j; try reflexivity. destruct (Hshape m eq_refl).
  - unfold PetState_init.
    destruct (decide _) as [Hall | _]; [|reflexivity].
    destruct (Hnot (Hall k v Hk)).
Qed.

Lemma load_missing path r w : fs w !! path = None -> load path r w = (r, w).
Proof.
  intros H. unfold load, bind, os_path_exists. rewrite H. reflexivity.
Qed.

Lemma load_found path r w n :
  fs w !! path = Some n ->
  load path r w =
  match and_then (and_then (match n with File c => inr c | Dir => inl OSError end)
                           json_load) PetState_init with
  | inr loaded => (loaded, printed (Loaded path) w)
  | inl e => (r, printed (LoadFailed e) w)
  end.
Proof.
  intros H. unfold load, bind, os_path_exists, open_read. rewrite !H. cbn.
  rewrite ?H. destruct n as [c|]; cbn; [|reflexivity].
  destruct (and_then (json_load c) PetState_init); reflexivity.
Qed.

Lemma save_writes path s w :
  fs w !! path <> Some Dir ->
  save path s w =
  (tt, mkWorld (clock w) (reads w)
               (<[path := File (Text (JObj (asdict s)))]> (fs w)) (stdout w)).
Proof.
  intros H. unfold save, bind, open_write_dump.
  destruct (fs w !! path) as [[c|]|]; try reflexivity. congruence.
Qed.

Lemma load_clock path r w :
  clock (snd (load path r w)) = clock w /\ reads (snd (load path r w)) = reads w.
Proof.
  destruct (fs w !! path) as [n|] eqn:E.
  - rewrite (load_found path r w n E).
    destruct (and_then _ PetState_init); split; reflexivity.
  - rewrite (load_missing path r w E). split; reflexivity.
Qed.

(** The constructor, in terms of what [load] returns. *)
Lemma Pet_init_eq path w :
  let loaded := fst (load path (raw PetState_default) (advance w)) in
  fst (Pet_init path w) =
  mkPet path
        (if py_eq_float (raw_last_level_update loaded) 0
         then mkRaw (raw_hunger loaded) (raw_thirst loaded) (raw_happiness loaded)
                    (raw_level loaded) (JFloat (clock w (S (reads w))))
                    (raw_is_neglected loaded)
         else loaded)
        (clock w (reads w)).
Proof.
  cbv zeta. unfold Pet_init, bind, time_time.
  change (mkWorld (clock w) (S (reads w)) (fs w) (stdout w)) with (advance w).
  destruct (load_clock path (raw PetState_default) (advance w)) as [Hc Hr].
  destruct (load path (raw PetState_default) (advance w)) as [st w1].
  cbn [fst snd] in *.
  destruct (py_eq_float (raw_last_level_update st) 0); unfold ret; cbn [fst].
  - rewrite Hc, Hr. reflexivity.
  - reflexivity.
Qed.

(** C8: saving a [PetState] and loading the snapshot gives back a state
    equal to it field for field: hunger, thirst, happiness, level,
    last_level_update and is_neglected (the write succeeds unless the save
    path is a directory). *)
Theorem save_load_roundtrip :
  (forall s, and_then (json_load (Text (JObj (asdict s)))) PetState_init = inr (raw s) /\
             typed (raw s) = Some s) /\
  (forall path s r w,
     fs w !! path <> Some Dir ->
     let loaded := fst (load path r (snd (save path s w))) in
     loaded = raw s /\ typed loaded = Some s).
Proof.
  split.
  - intros s. split; [apply PetState_init_asdict | apply typed_raw].
  - intros path s r w H. cbv zeta.
    rewrite (save_writes path s w H). cbn [snd].
    rewrite (load_found path r _ (File (Text (JObj (asdict s))))).
    + cbn [and_then json_load]. rewrite PetState_init_asdict. cbn [fst].
      split; [reflexivity | apply typed_raw].
    + cbn. apply lookup_insert_eq.
Qed.

Lemma save_load_roundtrip_witness :
  typed (fst (load SAVE_PATH (raw PetState_default)
                   (snd (save SAVE_PATH (mkPetState 40 30 75 3 1000 false)
                              (mkWorld (fun _ => 0) 0 ∅ [])))))
  = Some (mkPetState 40 30 75 3 1000 false).
Proof.
  apply (proj2 save_load_roundtrip SAVE_PATH (mkPetState 40 30 75 3 1000 false)
               (raw PetState_default) (mkWorld (fun _ => 0) 0 ∅ [])).
  discriminate.
Defined.

(** The values of a snapshot are not checked against the annotations: a
    snapshot with the right keys and a string for hunger loads without an
    error being printed, into a state that is not the default one and
    that [typed] does not recognise. *)
Lemma load_keeps_unchecked_values :
  let w := mkWorld (fun _ => 0) 0
             {[ SAVE_PATH := File (Text (JObj {[ "hunger"%string := JStr "lots" ]})) ]} [] in
  let loaded := fst (load SAVE_PATH (raw PetState_default) w) in
  raw_hunger loaded = JStr "lots" /\ typed loaded = None /\
  loaded <> raw PetState_default /\
  stdout (snd (load SAVE_PATH (raw PetState_default) w)) = [Loaded SAVE_PATH].
Proof.
  cbv zeta. split; [reflexivity|]. split; [reflexivity|].
  split; [|reflexivity].
  intros H. apply (f_equal raw_hunger) in H. vm_compute in H. discriminate H.
Qed.

(** C9, amended: [load] returns normally in every case.  With no save
    file the state stays as it was, the default one when [load] runs in
    the constructor; with a file that is no JSON, whose JSON is no object,
    or whose object has a key that is no field of [PetState], the error
    is printed, not propagated, and the state stays as it was too.  An
    object that has only field names as keys is loaded as it is and
    reported as loaded, whatever its values: they are not checked against
    the types of the fields. *)
Theorem load_falls_back path r w :
  (fs w !! path = None -> load path r w = (r, w)) /\
  (forall c, fs w !! path = Some (File c) -> malformed c ->
     exists e, load path r w = (r, printed (LoadFailed e) w)) /\
  (fs w !! path = None \/
   (exists c, fs w !! path = Some (File c) /\ malformed c) ->
   state (fst (Pet_init path w)) =
     raw (set_last_level_update (clock w (S (reads w))) PetState_default)) /\
  (fst (load path r w) = r \/
   exists j, fs w !! path = Some (File (Text j)) /\
             PetState_init j = inr (fst (load path r w))) /\
  (forall kw : gmap string json,
     fs w !! path = Some (File (Text (JObj kw))) ->
     map_Forall (fun k _ => k ∈ field_names) kw ->
     load path r w =
       (mkRaw (default (JFloat 0) (kw !! "hunger"))
              (default (JFloat 0) (kw !! "thirst"))
              (default (JFloat 100) (kw !! "happiness"))
              (default (JInt 1) (kw !! "level"))
              (default (JFloat 0) (kw !! "last_level_update"))
              (default (JBool false) (kw !! "is_neglected")),
        printed (Loaded path) w)).
Proof.
  assert (Hbad : forall r' w' c, fs w' !! path = Some (File c) -> malformed c ->
            exists e, load path r' w' = (r', printed (LoadFailed e) w')).
  { intros r' w' c Hc Hm. rewrite (load_found path r' w' _ Hc).
    destruct c as [j|]; cbn.
    - rewrite (PetState_init_malformed j Hm). eauto.
    - eauto. }
  split; [apply load_missing|]. split; [apply Hbad|]. split; [|split].
  - intros Hcase. rewrite Pet_init_eq. cbv zeta.
    assert (Hl : fst (load path (raw PetState_default) (advance w)) = raw PetState_default).
    { destruct Hcase as [Hnone | (c & Hc & Hm)].
      - rewrite load_missing; [reflexivity | exact Hnone].
      - destruct (Hbad (raw PetState_default) (advance w) c Hc Hm) as [e ->].
        reflexivity. }
    rewrite Hl. reflexivity.
  - destruct (fs w !! path) as [n|] eqn:E.
    + rewrite (load_found path r w n E).
      destruct n as [[j|]|]; cbn; try (left; reflexivity).
      destruct (PetState_init j) eqn:Ej; cbn; [left; reflexivity|].
      right. exists j. split; [reflexivity | exact Ej].
    + left. rewrite load_missing; [reflexivity | exact E].
  - intros kw Hfile Hkeys. rewrite (load_found path r w _ Hfile).
    cbn [and_then json_load]. unfold PetState_init.
    destruct (decide _) as [_ | Hn]; [reflexivity | destruct (Hn Hkeys)].
Qed.

Lemma load_falls_back_witness :
  exists e,
    load SAVE_PATH (raw PetState_default)
         (mkWorld (fun _ => 0) 0 {[ SAVE_PATH := File Garbage ]} [])
    = (raw PetState_default,
       printed (LoadFailed e)
         (mkWorld (fun _ => 0) 0 {[ SAVE_PATH := File Garbage ]} [])).
Proof.
  apply (proj1 (proj2 (load_falls_back SAVE_PATH (raw PetState_default)
           (mkWorld (fun _ => 0) 0 {[ SAVE_PATH := File Garbage ]} []))) Garbage).
  - reflexivity.
  - constructor.
Defined.

(** ** The level timer after construction *)

(** A pet that is not flagged neglected and whose timer is less than a
    day old keeps its level and its timer through a tick. *)
Lemma tick_within_a_day m r s w :
  is_neglected s = false ->
  clock w (reads w) - last_level_update s < 86400 ->
  level (fst (tick m r s w)) = level s /\
  last_level_update (fst (tick m r s w)) = last_level_update s.
Proof.
  intros Hn Hlt.
  destruct (tick_result m r s w) as [Hs _].
  destruct (tick_at_level_check m r s w) as (Hl & Hu & Hc & Hr).
  cbv zeta in *. rewrite Hn in Hu, Hr. cbn in Hu, Hr.
  rewrite Hc, Hr, Hu in Hs.
  apply Qle_bool_false in Hlt. rewrite Hlt in Hs.
  rewrite Hs, Hl, Hu. split; reflexivity.
Qed.

(** C10: the constructor leaves in last_level_update the loaded value,
    or the current wall-clock time when the loaded value (the default one
    when there is no snapshot) equals 0.0; so after construction it never
    equals 0.0, the clock being past the epoch, and the first tick of a
    fresh start, less than a day later, changes neither the level nor the
    timer. *)
Theorem init_starts_level_timer path w :
  let p := fst (Pet_init path w) in
  let loaded := fst (load path (raw PetState_default) (advance w)) in
  let t := clock w (S (reads w)) in
  (raw_last_level_update (state p) =
     if py_eq_float (raw_last_level_update loaded) 0
     then JFloat t else raw_last_level_update loaded) /\
  (~ t == 0 -> py_eq_float (raw_last_level_update (state p)) 0 = false) /\
  (fs w !! path = None ->
   typed (state p) = Some (set_last_level_update t PetState_default) /\
   forall m r w',
     clock w' (reads w') - t < 86400 ->
     let s' := fst (tick m r (set_last_level_update t PetState_default) w') in
     level s' = 1%Z /\ last_level_update s' = t).
Proof.
  cbv zeta. rewrite Pet_init_eq. cbv zeta. cbn [state].
  set (loaded := fst (load path (raw PetState_default) (advance w))).
  split; [|split].
  - destruct (py_eq_float (raw_last_level_update loaded) 0); reflexivity.
  - intros Ht.
    destruct (py_eq_float (raw_last_level_update loaded) 0) eqn:E; [|exact E].
    cbn. destruct (Qeq_bool _ 0) eqn:E'; [|reflexivity].
    apply Qeq_bool_iff in E'. contradiction.
  - intros Hnone. subst loaded.
    rewrite load_missing by exact Hnone. cbn. split; [reflexivity|].
    intros m r w' Hlt.
    apply (tick_within_a_day m r
             (set_last_level_update (clock w (S (reads w))) PetState_default) w');
      [reflexivity | exact Hlt].
Qed.

Lemma init_starts_level_timer_witness :
  py_eq_float
    (raw_last_level_update
       (state (fst (Pet_init SAVE_PATH (mkWorld (fun _ => 1000) 0 ∅ []))))) 0
  = false.
Proof.
  apply (init_starts_level_timer SAVE_PATH (mkWorld (fun _ => 1000) 0 ∅ [])).
  cbn. intros H. vm_compute in H. discriminate H.
Defined.

(** ** Drag and drop *)

Lemma handle_events_cons e rest a w :
  handle_events (e :: rest) a w =
  (if fst (fst (handle_event e a w))
   then handle_events rest (snd (fst (handle_event e a w))) (snd (handle_event e a w))
   else handle_event e a w).
Proof.
  cbn [handle_events]. unfold bind.
  destruct (handle_event e a w) as [[b a1] w1]. cbn. destruct b; reflexivity.
Qed.

Lemma handle_down a pos d w :
  first_hit (emoji_rects a) pos = Some d ->
  handle_event (MOUSEBUTTONDOWN pos) a w = ((true, set_drag (Some d) (Some pos) a), w).
Proof.
  intros H. unfold handle_event, handle_mouse, bind. rewrite H. reflexivity.
Qed.

(** The "feed" region is the first entry of the dictionary that
    [draw_status_bars] builds, so a press inside it selects "feed". *)
Lemma first_hit_feed rect rest pos :
  collidepoint rect pos = true ->
  first_hit (("feed"%string, rect) :: rest) pos = Some "feed"%string.
Proof.
  intros H. cbn [first_hit]. rewrite H. reflexivity.
Qed.

(** While an emoji is dragged, the moves only replace [drag_pos]. *)
Lemma handle_moves d moves : forall p rest a w,
  str_truthy (Some d) = true ->
  handle_events (map MOUSEMOTION moves ++ rest) (set_drag (Some d) (Some p) a) w =
  handle_events rest (set_drag (Some d) (Some (tracked p moves)) a) w.
Proof.
  induction moves as [|pos moves IH]; intros p rest a w Hd.
  - reflexivity.
  - cbn [map app]. rewrite handle_events_cons.
    unfold handle_event, handle_mouse, bind.
    cbn [dragged_emoji set_drag]. rewrite Hd. cbn [fst snd ret].
    apply (IH pos rest a w Hd).
Qed.

Lemma collidepoint_truthy r pos : collidepoint r pos = true -> rect_truthy r = true.
Proof.
  unfold collidepoint, rect_truthy. intros H.
  apply andb_true_iff in H as [H H4]. apply andb_true_iff in H as [H H3].
  apply andb_true_iff in H as [H1 H2].
  apply andb_true_iff. split; apply negb_true_iff; apply Z.eqb_neq; lia.
Qed.

(** The release of a dragged "feed": the drop is tested at [drag_pos]. *)
Lemma handle_up_feed a pos up r w :
  pet_rect a = Some r ->
  handle_event (MOUSEBUTTONUP up) (set_drag (Some "feed"%string) (Some pos) a) w =
  if collidepoint r pos
  then ((true, set_drag None None
                 (set_floating_hearts (floating_hearts a ++ new_hearts r)
                    (set_pet (set_hunger (py_max 0 (hunger (pet a) - FEED_AMOUNT)) (pet a)) a))),
        printed (Fed (py_max 0 (hunger (pet a) - FEED_AMOUNT))) w)
  else ((true, set_drag None None a), w).
Proof.
  intros Hr. unfold handle_event, handle_mouse, bind.
  cbn [dragged_emoji drag_pos pet_rect set_drag]. rewrite Hr.
  destruct (collidepoint r pos) eqn:Hc.
  - rewrite (collidepoint_truthy r pos Hc). cbn [str_truthy String.eqb negb andb].
    unfold perform, spawn_floating_hearts, feed, bind, print, ret. cbn. rewrite Hr.
    rewrite (collidepoint_truthy r pos Hc). reflexivity.
  - rewrite andb_false_r. reflexivity.
Qed.

(** The release position plays no part: a release on the pet right after
    the press does nothing, and a release away from the pet after a move
    onto it feeds the pet. *)
Lemma drop_ignores_release_position :
  let a := mkApp (mkPetState 50 0 100 1 1000 false) None None
                 [("feed"%string, mkRect 86 293 16 16);
                  ("drink"%string, mkRect 219 293 16 16);
                  ("play"%string, mkRect 352 293 16 16)]
                 (Some (mkRect 176 132 128 128)) [] in
  let w := mkWorld (fun _ => 2000) 0 ∅ [] in
  let on_feed := (90, 300)%Z in
  let on_pet := (240, 200)%Z in
  let off_pet := (10, 10)%Z in
  let direct := snd (fst (handle_events
                  [MOUSEBUTTONDOWN on_feed; MOUSEBUTTONUP on_pet] a w)) in
  let away := snd (fst (handle_events
                  [MOUSEBUTTONDOWN on_feed; MOUSEMOTION on_pet; MOUSEBUTTONUP off_pet] a w)) in
  first_hit (emoji_rects a) on_feed = Some "feed"%string /\
  (exists r, pet_rect a = Some r /\
             collidepoint r on_pet = true /\ collidepoint r off_pet = false) /\
  (hunger (pet direct) = 50 /\ floating_hearts direct = []) /\
  (hunger (pet away) == 25 /\ length (floating_hearts away) = 3%nat).
Proof.
  cbv zeta. split; [reflexivity|]. split.
  - eexists. split; [reflexivity|]. split; reflexivity.
  - split; split; reflexivity.
Qed.

(** C7, amended: after a pointer-down inside the "feed" hit region and any
    pointer-moves, a pointer-up returns the machine to idle, and the drop is
    decided by the tracked drag position (the position of the pointer-down,
    replaced by each pointer-move), not by the position of the pointer-up
    event.  If the tracked position is inside the pet's hit region, the
    feed action is invoked (hunger decreases by the configured feed amount,
    clamped at 0) and one spawn of floating hearts is triggered; if it is
    outside, no action is invoked and nothing is spawned. *)
Theorem drag_feed_drop a down moves up r w :
  first_hit (emoji_rects a) down = Some "feed"%string ->
  pet_rect a = Some r ->
  let run := handle_events (drag down moves up) a w in
  let a' := snd (fst run) in
  let w' := snd run in
  fst (fst run) = true /\ dragged_emoji a' = None /\ drag_pos a' = None /\
  (collidepoint r (tracked down moves) = true ->
   pet a' = set_hunger (py_max 0 (hunger (pet a) - FEED_AMOUNT)) (pet a) /\
   floating_hearts a' = floating_hearts a ++ new_hearts r /\
   stdout w' = stdout w ++ [Fed (py_max 0 (hunger (pet a) - FEED_AMOUNT))]) /\
  (collidepoint r (tracked down moves) = false ->
   pet a' = pet a /\ floating_hearts a' = floating_hearts a /\ stdout w' = stdout w).
Proof.
  intros Hdown Hr. cbv zeta. unfold drag.
  rewrite handle_events_cons, (handle_down a down _ w Hdown). cbn [fst snd].
  rewrite (handle_moves "feed"%string moves down _ a w eq_refl).
  rewrite handle_events_cons, (handle_up_feed a _ up r w Hr).
  destruct (collidepoint r (tracked down moves)); cbn;
    repeat split; intros; try discriminate; repeat split.
Qed.

Lemma drag_feed_drop_witness :
  let a := mkApp (mkPetState 50 0 100 1 1000 false) None None
                 [("feed"%string, mkRect 86 293 16 16)]
                 (Some (mkRect 176 132 128 128)) [] in
  let w := mkWorld (fun _ => 2000) 0 ∅ [] in
  dragged_emoji (snd (fst (handle_events
     (drag (90, 300)%Z [(240, 200)%Z] (240, 200)%Z) a w))) = None.
Proof.
  cbv zeta.
  apply (drag_feed_drop
           (mkApp (mkPetState 50 0 100 1 1000 false) None None
                  [("feed"%string, mkRect 86 293 16 16)]
                  (Some (mkRect 176 132 128 128)) [])
           (90, 300)%Z [(240, 200)%Z] (240, 200)%Z (mkRect 176 132 128 128)
           (mkWorld (fun _ => 2000) 0 ∅ [])).
  - reflexivity.
  - reflexivity.
Defined.

(** * Further properties of pet.py *)

(** ** The level and its timer *)

Lemma tick_level_cases m r s w :
  (1 <= level s)%Z ->
  let s' := fst (tick m r s w) in
  (1 <= level s')%Z /\
  (is_neglected s' = true -> (level s' <= level s)%Z) /\
  (is_neglected s' = false -> (level s <= level s')%Z).
Proof.
  intros H1. cbv zeta.
  destruct (tick_result m r s w) as [Hs _].
  destruct (tick_at_level_check m r s w) as (Hl & _).
  cbv zeta in *.
  set (mid := tick_neglect (tick_decay m r s) w) in *.
  set (seconds := clock (snd mid) (reads (snd mid)) - last_level_update (fst mid)) in *.
  rewrite Hs.
  destruct (Qle_bool_spec 86400 seconds) as [Hge | Hlt].
  - pose proof (Qfloor_nonneg _ (days_nonneg _ Hge)) as Hd.
    rewrite <- (py_int_floor _ (days_nonneg _ Hge)) in Hd.
    destruct (is_neglected (fst mid)) eqn:En; cbn; rewrite ?En, Hl;
      repeat split; intros; try discriminate; lia.
  - rewrite Hl. repeat split; intros; lia.
Qed.

(** X1: a tick never takes the level below 1; the level of a neglected
    pet never rises, the level of a pet that is not neglected never
    falls. *)
Theorem tick_level_bounds m r s w :
  (1 <= level s)%Z ->
  let s' := fst (tick m r s w) in
  (1 <= level s')%Z /\
  (is_neglected s' = true -> (level s' <= level s)%Z) /\
  (is_neglected s' = false -> (level s <= level s')%Z).
Proof.
  exact (tick_level_cases m r s w).
Qed.

Lemma tick_level_bounds_witness :
  Z.le 1 (level (fst (tick 1 STAT_DECAY_PER_MIN
                           (mkPetState 100 100 0 1 1000 true)
                           (mkWorld (fun _ => 500000) 0 ∅ [])))).
Proof.
  refine (proj1 (tick_level_bounds 1 STAT_DECAY_PER_MIN
                   (mkPetState 100 100 0 1 1000 true)
                   (mkWorld (fun _ => 500000) 0 ∅ []) _)).
  cbn. lia.
Defined.

(** X2: a tick either leaves both the level and last_level_update as
    they were, or sets last_level_update to a wall-clock reading taken
    by this call: the level never changes without the timer being
    restarted. *)
Theorem tick_timer_restarts m r s w :
  let s' := fst (tick m r s w) in
  (level s' = level s /\ last_level_update s' = last_level_update s) \/
  read_during w (snd (tick m r s w)) (last_level_update s').
Proof.
  cbv zeta.
  destruct (tick_result m r s w) as [Hs Hw].
  destruct (tick_at_level_check m r s w) as (Hl & Hu & Hc & Hr).
  cbv zeta in *.
  set (mid := tick_neglect (tick_decay m r s) w) in *.
  rewrite Hs, Hw. unfold read_during.
  destruct (Qle_bool 86400 _).
  - right. cbn. rewrite Hc.
    exists (reads (snd mid)). split; [|reflexivity].
    rewrite Hr. destruct (_ && _); lia.
  - cbn [fst]. rewrite Hl, Hu.
    destruct (is_neglected s && negb (is_neglected (fst mid))) eqn:E.
    + right. exists (reads w). split; [|reflexivity]. cbn. rewrite Hr. lia.
    + left. split; reflexivity.
Qed.

(** ** Decay *)

(** X4: with a non-negative rate and time, a tick never improves a stat
    of a pet in range: hunger and thirst do not fall, happiness does not
    rise.  A pet whose bars are all empty stays neglected, and a decay of
    100 points or more leaves any pet neglected. *)
Theorem tick_only_worsens m r s w :
  in_range s -> 0 <= r -> 0 <= m ->
  let s' := fst (tick m r s w) in
  hunger s <= hunger s' /\ thirst s <= thirst s' /\
  happiness s' <= happiness s /\
  (all_bars_empty s = true -> is_neglected s' = true) /\
  (100 <= r * m -> is_neglected s' = true).
Proof.
  intros [[Hh0 Hh1] [[Ht0 Ht1] [Hp0 Hp1]]] Hr Hm. cbv zeta.
  destruct (tick_stats m r s w) as (Hh & Ht & Hp & Hn). cbv zeta in *.
  assert (Hd : 0 <= r * m) by (apply Qmult_le_0_compat; assumption).
  assert (A : hunger s <= hunger (fst (tick m r s w)))
    by (rewrite Hh; apply py_min_glb; lra).
  assert (B : thirst s <= thirst (fst (tick m r s w)))
    by (rewrite Ht; apply py_min_glb; lra).
  assert (C : happiness (fst (tick m r s w)) <= happiness s)
    by (rewrite Hp; apply py_max_lub; lra).
  repeat split; try assumption.
  - intros E. apply all_bars_empty_iff in E.
    rewrite Hn. apply all_bars_empty_iff. lra.
  - intros Hbig. rewrite Hn. apply all_bars_empty_iff.
    rewrite Hh, Ht, Hp. unfold py_min, py_max. case_min; lra.
Qed.

Lemma tick_only_worsens_witness :
  is_neglected (fst (tick 6000 STAT_DECAY_PER_MIN PetState_default
                          (mkWorld (fun _ => 0) 0 ∅ []))) = true.
Proof.
  refine (proj2 (proj2 (proj2 (proj2
            (tick_only_worsens 6000 STAT_DECAY_PER_MIN PetState_default
               (mkWorld (fun _ => 0) 0 ∅ []) _ _ _)))) _).
  - unfold in_range; cbn. repeat split; lra.
  - vm_compute. discriminate.
  - lra.
  - vm_compute. discriminate.
Defined.

(** ** The mood *)

(** X6: [mood] is happy exactly when the three bars are above 70, and a
    pet whose bars are all empty is hungry. *)
Theorem mood_happy_iff s :
  (mood s = happy <->
   70 < food_bar s /\ 70 < water_bar s /\ 70 < heart_bar s) /\
  (all_bars_empty s = true -> mood s = hungry).
Proof.
  split; [split|].
  - unfold mood, food_bar, water_bar, heart_bar, py_min3, py_min.
    case_tests; intros Hm; try discriminate; repeat split; lra.
  - intros (Hf & Hw & Hh). unfold food_bar, water_bar, heart_bar in *.
    unfold mood. case_tests; try reflexivity; exfalso; lra.
  - intros E. apply all_bars_empty_iff in E. destruct E as (Hh & Ht & Hp).
    unfold mood. unfold py_min3, py_min.
    case_tests; try reflexivity; exfalso; lra.
Qed.

Lemma mood_happy_iff_witness :
  mood (mkPetState 100 100 0 1 0 true) = hungry.
Proof.
  refine (proj2 (mood_happy_iff (mkPetState 100 100 0 1 0 true)) _).
  reflexivity.
Defined.

(** ** Saving, loading and restarting *)

(** X7: on the save path of the application, [save] touches nothing
    else and reads no clock.  If the path is a directory the failure is
    printed and the file system is left as it was; otherwise the file
    holds the snapshot of the state and nothing is printed. *)
Theorem save_effects s w :
  let w' := snd (save SAVE_PATH s w) in
  (forall p, p <> SAVE_PATH -> fs w' !! p = fs w !! p) /\
  clock w' = clock w /\ reads w' = reads w /\
  (fs w !! SAVE_PATH = Some Dir ->
   fs w' = fs w /\ stdout w' = stdout w ++ [SaveFailed OSError]) /\
  (fs w !! SAVE_PATH <> Some Dir ->
   fs w' !! SAVE_PATH = Some (File (Text (JObj (asdict s)))) /\
   stdout w' = stdout w).
Proof.
  cbv zeta. unfold save, bind, open_write_dump.
  destruct (fs w !! SAVE_PATH) as [[c|]|] eqn:E; cbn.
  - split; [intros p Hp; apply lookup_insert_ne; congruence|].
    repeat split; try discriminate. apply lookup_insert_eq.
  - split; [reflexivity|]. repeat split; congruence.
  - split; [intros p Hp; apply lookup_insert_ne; congruence|].
    repeat split; try discriminate. apply lookup_insert_eq.
Qed.

Lemma save_effects_witness :
  let w := mkWorld (fun _ => 0) 0 {[ SAVE_PATH := Dir ]} [] in
  stdout (snd (save SAVE_PATH PetState_default w)) = stdout w ++ [SaveFailed OSError].
Proof.
  cbv zeta.
  refine (proj2 (proj1 (proj2 (proj2 (proj2
            (save_effects PetState_default
               (mkWorld (fun _ => 0) 0 {[ SAVE_PATH := Dir ]} []))))) _)).
  reflexivity.
Defined.

(** X8: [load] only reads: the file system and the clock are left as
    they were.  It prints nothing when there is no file, and exactly one
    line, success or failure, when there is one. *)
Theorem load_reads_only path r w :
  let w' := snd (load path r w) in
  fs w' = fs w /\ clock w' = clock w /\ reads w' = reads w /\
  (fs w !! path = None -> stdout w' = stdout w) /\
  (is_Some (fs w !! path) ->
   stdout w' = stdout w ++ [Loaded path] \/
   exists e, stdout w' = stdout w ++ [LoadFailed e]).
Proof.
  cbv zeta. destruct (fs w !! path) as [n|] eqn:E.
  - rewrite (load_found path r w n E).
    destruct (and_then _ PetState_init) as [e|loaded]; cbn;
      repeat split; try discriminate; intros _; eauto.
  - rewrite (load_missing path r w E). cbn.
    repeat split. intros [x Hx]. discriminate.
Qed.

Lemma load_reads_only_witness :
  let w := mkWorld (fun _ => 0) 0 ∅ [] in
  stdout (snd (load SAVE_PATH (raw PetState_default) w)) = stdout w.
Proof.
  cbv zeta.
  refine (proj1 (proj2 (proj2 (proj2
            (load_reads_only SAVE_PATH (raw PetState_default)
               (mkWorld (fun _ => 0) 0 ∅ []))))) _).
  reflexivity.
Defined.

(** A pet constructed over a snapshot of [s] holds [s], with the level
    timer started if the snapshot had none. *)
Lemma Pet_init_snapshot path s w :
  fs w !! path = Some (File (Text (JObj (asdict s)))) ->
  state (fst (Pet_init path w)) =
  raw (if Qeq_bool (last_level_update s) 0
       then set_last_level_update (clock w (S (reads w))) s else s).
Proof.
  intros H. rewrite Pet_init_eq. cbv zeta. cbn [state].
  rewrite (load_found path _ (advance w) _ H).
  cbn [and_then json_load]. rewrite PetState_init_asdict. cbn [fst].
  cbn [raw_last_level_update raw py_eq_float].
  destruct (Qeq_bool (last_level_update s) 0); reflexivity.
Qed.

(** X9: a restart restores the pet: after [save] on the save path of
    the application (not a directory), the constructor over that path
    returns the saved state field for field, except that a
    last_level_update equal to 0.0 is replaced by the current time. *)
Theorem restart_restores s w :
  fs w !! SAVE_PATH <> Some Dir ->
  let p := fst (Pet_init SAVE_PATH (snd (save SAVE_PATH s w))) in
  let t := clock w (S (reads w)) in
  save_path p = SAVE_PATH /\
  typed (state p) =
    Some (if Qeq_bool (last_level_update s) 0
          then set_last_level_update t s else s) /\
  (~ last_level_update s == 0 -> typed (state p) = Some s).
Proof.
  intros H. cbv zeta. rewrite (save_writes SAVE_PATH s w H). cbn [snd].
  rewrite (Pet_init_snapshot SAVE_PATH s); [|apply lookup_insert_eq].
  cbn [clock reads]. rewrite typed_raw.
  split; [rewrite Pet_init_eq; reflexivity|]. split; [reflexivity|].
  intros Hne. destruct (Qeq_bool (last_level_update s) 0) eqn:E; [|reflexivity].
  apply Qeq_bool_iff in E. contradiction.
Qed.

Lemma restart_restores_witness :
  typed (state (fst (Pet_init SAVE_PATH
                       (snd (save SAVE_PATH (mkPetState 40 30 75 3 1000 false)
                                  (mkWorld (fun _ => 2000) 0 ∅ []))))))
  = Some (mkPetState 40 30 75 3 1000 false).
Proof.
  refine (proj2 (proj2 (restart_restores (mkPetState 40 30 75 3 1000 false)
                          (mkWorld (fun _ => 2000) 0 ∅ []) _)) _).
  - discriminate.
  - intros H. vm_compute in H. discriminate H.
Defined.

(** ** reset_save.py *)

Lemma default_state_asdict t :
  default_state t = asdict (set_last_level_update t PetState_default).
Proof. reflexivity. Qed.

(** X10: the reset script and the loader agree.  Unless the answer is
    "y" or "Y" nothing is written.  After a confirmed reset the pet
    constructed over the save path is the default one, its level timer
    at the time of the reset; if the save path is a directory the write
    raises and the file system is left as it was. *)
Theorem reset_save_effects confirm w :
  let t := clock w (reads w) in
  let w' := snd (reset_save confirm w) in
  (lower confirm <> "y"%string ->
   fst (reset_save confirm w) = inr tt /\ fs w' = fs w) /\
  (lower confirm = "y"%string -> fs w !! SAVE_PATH = Some Dir ->
   fst (reset_save confirm w) = inl OSError /\ fs w' = fs w) /\
  (lower confirm = "y"%string -> fs w !! SAVE_PATH <> Some Dir -> ~ t == 0 ->
   fst (reset_save confirm w) = inr tt /\
   typed (state (fst (Pet_init SAVE_PATH w'))) =
     Some (set_last_level_update t PetState_default)).
Proof.
  cbv zeta. unfold reset_save, bind, time_time. split; [|split].
  - intros Hn. destruct (String.eqb_spec (lower confirm) "y"); [contradiction|].
    cbn. split; reflexivity.
  - intros Hy Hd. rewrite Hy. cbn [String.eqb Ascii.eqb Bool.eqb negb].
    unfold open_write_dump. cbn [fs]. rewrite Hd. split; reflexivity.
  - intros Hy Hd Ht. rewrite Hy. cbn [String.eqb Ascii.eqb Bool.eqb negb].
    unfold open_write_dump. cbn [fs].
    assert (Hfile : forall c r f o,
              fs (mkWorld c r (<[SAVE_PATH := File (Text (JObj (default_state (clock w (reads w)))))]> f) o)
                 !! SAVE_PATH
              = Some (File (Text (JObj (asdict (set_last_level_update (clock w (reads w)) PetState_default)))))).
    { intros. cbn [fs]. rewrite default_state_asdict. apply lookup_insert_eq. }
    destruct (fs w !! SAVE_PATH) as [[c|]|] eqn:E; try congruence; cbn [fst snd].
    + split; [reflexivity|].
      rewrite (Pet_init_snapshot SAVE_PATH _ _ (Hfile _ _ _ _)), typed_raw.
      cbn [last_level_update set_last_level_update].
      destruct (Qeq_bool (clock w (reads w)) 0) eqn:Eq; [|reflexivity].
      apply Qeq_bool_iff in Eq. contradiction.
    + split; [reflexivity|].
      rewrite (Pet_init_snapshot SAVE_PATH _ _ (Hfile _ _ _ _)), typed_raw.
      cbn [last_level_update set_last_level_update].
      destruct (Qeq_bool (clock w (reads w)) 0) eqn:Eq; [|reflexivity].
      apply Qeq_bool_iff in Eq. contradiction.
Qed.

Lemma reset_save_effects_witness :
  typed (state (fst (Pet_init SAVE_PATH
                       (snd (reset_save "Y" (mkWorld (fun _ => 2000) 0 ∅ []))))))
  = Some (set_last_level_update 2000 PetState_default).
Proof.
  refine (proj2 (proj2 (proj2 (reset_save_effects "Y"
            (mkWorld (fun _ => 2000) 0 ∅ []))) _ _ _)).
  - reflexivity.
  - discriminate.
  - intros H. vm_compute in H. discriminate H.
Defined.

(** * Further properties of app.py *)

(** ** One event *)

Lemma spawn_keeps_pet a :
  pet (spawn_floating_hearts a) = pet a /\
  dragged_emoji (spawn_floating_hearts a) = dragged_emoji a /\
  pet_rect (spawn_floating_hearts a) = pet_rect a.
Proof.
  unfold spawn_floating_hearts.
  destruct (pet_rect a) as [r|] eqn:E; [destruct (rect_truthy r)|];
    cbn; rewrite ?E; repeat split.
Qed.

Lemma perform_cases d a w :
  fs (snd (perform d a w)) = fs w /\ touched (pet a) (pet (fst (perform d a w))).
Proof.
  unfold perform, touched.
  destruct (String.eqb d "feed"); [|destruct (String.eqb d "drink");
                                     [|destruct (String.eqb d "play")]];
    unfold feed, drink, play, bind, print, ret; cbn [fst snd fs];
    rewrite ?(proj1 (spawn_keeps_pet _)); cbn [pet set_pet]; split; tauto.
Qed.

Lemma handle_event_quit e a w :
  is_quit e = true ->
  handle_event e a w = ((false, a), snd (save SAVE_PATH (pet a) w)).
Proof.
  intros H. destruct e as [| | | | key |]; try discriminate;
    [|destruct key; try discriminate];
    unfold handle_event, handle_key, bind;
    destruct (save SAVE_PATH (pet a) w) as [[] w1]; reflexivity.
Qed.

Lemma handle_event_go e a w :
  is_quit e = false ->
  fst (fst (handle_event e a w)) = true /\
  fs (snd (handle_event e a w)) = fs w /\
  touched (pet a) (pet (snd (fst (handle_event e a w)))).
Proof.
  intros H. destruct e as [| pos | pos | pos | key |]; try discriminate.
  - unfold handle_event, handle_mouse, bind, ret.
    destruct (first_hit (emoji_rects a) pos); cbn; repeat split; left; reflexivity.
  - unfold handle_event, handle_mouse, bind, ret.
    destruct (str_truthy (dragged_emoji a)); cbn; repeat split; left; reflexivity.
  - unfold handle_event, handle_mouse, bind, ret.
    destruct (dragged_emoji a) as [d|]; [destruct (drag_pos a) as [p|];
      [destruct (pet_rect a) as [r|];
        [destruct (str_truthy (Some d) && rect_truthy r && collidepoint r p)|]|]|];
      try (cbn; repeat split; left; reflexivity).
    destruct (perform_cases d a w) as [Hf Ht].
    destruct (perform d a w) as [a1 w1]. cbn in *. repeat split; assumption.
  - destruct key; try discriminate;
      unfold handle_event, handle_key, feed, drink, play, reset, bind, print,
             time_time, ret; cbn [fst snd fs];
      rewrite ?(proj1 (spawn_keeps_pet _)); cbn [pet set_pet];
      unfold touched; repeat split; eauto 6.
  - unfold handle_event, handle_mouse, bind, ret. cbn. repeat split. left. reflexivity.
Qed.

(** ** Quitting *)

(** X11: [handle_events] returns [False] exactly when the list holds a
    QUIT or an Escape key-down, and the events after the first of them
    are not handled. *)
Theorem handle_events_stops_at_quit events a w :
  fst (fst (handle_events events a w)) = negb (existsb is_quit events) /\
  (forall pre q post,
     events = pre ++ q :: post -> is_quit q = true ->
     handle_events events a w = handle_events (pre ++ [q]) a w).
Proof.
  split.
  - revert a w. induction events as [|e rest IH]; intros a w; [reflexivity|].
    rewrite handle_events_cons. cbn [existsb].
    destruct (is_quit e) eqn:E.
    + rewrite (handle_event_quit e a w E). reflexivity.
    + destruct (handle_event_go e a w E) as [-> _]. apply IH.
  - intros pre q post -> Hq. revert a w.
    induction pre as [|e pre IH]; intros a w; cbn [app].
    + rewrite !handle_events_cons, (handle_event_quit q a w Hq). reflexivity.
    + rewrite !handle_events_cons.
      destruct (fst (fst (handle_event e a w))); [apply IH | reflexivity].
Qed.

Lemma handle_events_stops_at_quit_witness :
  let a := mkApp PetState_default None None [] None [] in
  let w := mkWorld (fun _ => 0) 0 ∅ [] in
  handle_events [KEYDOWN K_f; QUIT; KEYDOWN K_r] a w =
  handle_events ([KEYDOWN K_f] ++ [QUIT]) a w.
Proof.
  cbv zeta.
  refine (proj2 (handle_events_stops_at_quit [KEYDOWN K_f; QUIT; KEYDOWN K_r]
                   (mkApp PetState_default None None [] None [])
                   (mkWorld (fun _ => 0) 0 ∅ []))
                [KEYDOWN K_f] QUIT [KEYDOWN K_r] _ _); reflexivity.
Defined.

(** X12: quitting saves the pet as the events before the quit left it:
    unless the save path is a directory, the file then holds its
    snapshot, and a pet constructed over it afterwards is that pet (with
    the level timer started if it was 0.0). *)
Theorem quit_saves_pet pre q post a w :
  existsb is_quit pre = false -> is_quit q = true ->
  fs w !! SAVE_PATH <> Some Dir ->
  let run := handle_events (pre ++ q :: post) a w in
  let s := pet (snd (fst run)) in
  fst (fst run) = false /\
  fs (snd run) !! SAVE_PATH = Some (File (Text (JObj (asdict s)))) /\
  typed (state (fst (Pet_init SAVE_PATH (snd run)))) =
    Some (if Qeq_bool (last_level_update s) 0
          then set_last_level_update (clock (snd run) (S (reads (snd run)))) s
          else s).
Proof.
  revert a w. induction pre as [|e pre IH]; intros a w Hpre Hq Hfs; cbv zeta.
  - cbn [app]. rewrite handle_events_cons, (handle_event_quit q a w Hq).
    cbn [fst snd]. rewrite (save_writes SAVE_PATH (pet a) w Hfs). cbn [snd].
    split; [reflexivity|].
    assert (Hfile : fs (mkWorld (clock w) (reads w)
                          (<[SAVE_PATH := File (Text (JObj (asdict (pet a))))]> (fs w))
                          (stdout w)) !! SAVE_PATH
                    = Some (File (Text (JObj (asdict (pet a))))))
      by apply lookup_insert_eq.
    split; [exact Hfile|].
    rewrite (Pet_init_snapshot SAVE_PATH (pet a) _ Hfile), typed_raw. reflexivity.
  - cbn [app existsb] in *. apply orb_false_iff in Hpre as [He Hpre].
    rewrite handle_events_cons.
    destruct (handle_event_go e a w He) as (-> & Hfs' & _).
    apply IH; [exact Hpre | exact Hq | rewrite Hfs'; exact Hfs].
Qed.

Lemma quit_saves_pet_witness :
  let a := mkApp (mkPetState 50 0 100 1 1000 false) None None [] None [] in
  let w := mkWorld (fun _ => 2000) 0 ∅ [] in
  fst (fst (handle_events ([KEYDOWN K_f] ++ QUIT :: []) a w)) = false.
Proof.
  cbv zeta.
  refine (proj1 (quit_saves_pet [KEYDOWN K_f] QUIT []
                   (mkApp (mkPetState 50 0 100 1 1000 false) None None [] None [])
                   (mkWorld (fun _ => 2000) 0 ∅ []) _ _ _)).
  - reflexivity.
  - reflexivity.
  - discriminate.
Defined.

(** ** Drops of the other emojis, and presses that miss *)

Lemma handle_moves_idle moves : forall rest a w,
  str_truthy (dragged_emoji a) = false ->
  handle_events (map MOUSEMOTION moves ++ rest) a w = handle_events rest a w.
Proof.
  induction moves as [|pos moves IH]; intros rest a w Hd; [reflexivity|].
  cbn [map app]. rewrite handle_events_cons.
  unfold handle_event, handle_mouse, bind. rewrite Hd. cbn [fst snd ret].
  apply (IH rest a w Hd).
Qed.

Lemma handle_up_idle up a w :
  str_truthy (dragged_emoji a) = false ->
  handle_event (MOUSEBUTTONUP up) a w = ((true, set_drag None None a), w).
Proof.
  intros Hd. unfold handle_event, handle_mouse, bind, ret.
  destruct (dragged_emoji a) as [d|]; [|reflexivity].
  destruct (drag_pos a) as [p|]; [|reflexivity].
  destruct (pet_rect a) as [r|]; [|reflexivity].
  rewrite Hd. reflexivity.
Qed.

Lemma handle_up_drop d a pos up r w :
  str_truthy (Some d) = true -> pet_rect a = Some r ->
  collidepoint r pos = true ->
  handle_event (MOUSEBUTTONUP up) (set_drag (Some d) (Some pos) a) w =
  ((true, set_drag None None (fst (perform d (set_drag (Some d) (Some pos) a) w))),
   snd (perform d (set_drag (Some d) (Some pos) a) w)).
Proof.
  intros Hd Hr Hc. unfold handle_event, handle_mouse, bind.
  cbn [dragged_emoji drag_pos pet_rect set_drag]. rewrite Hr, Hd, Hc.
  rewrite (collidepoint_truthy r pos Hc). cbn [andb].
  destruct (perform d _ w) as [a1 w1]. reflexivity.
Qed.

(** X13: a drop of the "drink" emoji on the pet gives water by the feed
    amount, a drop of the "play" emoji raises happiness by the play
    amount, each with one spawn of hearts and one printed line; a drop of
    a region under any other name does nothing to the pet. *)
Theorem drag_drop_actions d a down moves up r w :
  first_hit (emoji_rects a) down = Some d ->
  pet_rect a = Some r ->
  collidepoint r (tracked down moves) = true ->
  let run := handle_events (drag down moves up) a w in
  let a' := snd (fst run) in
  (d = "drink"%string ->
   pet a' = set_thirst (py_max 0 (thirst (pet a) - FEED_AMOUNT)) (pet a) /\
   floating_hearts a' = floating_hearts a ++ new_hearts r /\
   stdout (snd run) = stdout w ++ [Drank (py_max 0 (thirst (pet a) - FEED_AMOUNT))]) /\
  (d = "play"%string ->
   pet a' = set_happiness (py_min 100 (happiness (pet a) + PLAY_AMOUNT)) (pet a) /\
   floating_hearts a' = floating_hearts a ++ new_hearts r /\
   stdout (snd run) = stdout w ++ [Played (py_min 100 (happiness (pet a) + PLAY_AMOUNT))]) /\
  (d <> "feed"%string -> d <> "drink"%string -> d <> "play"%string ->
   pet a' = pet a /\ floating_hearts a' = floating_hearts a /\
   stdout (snd run) = stdout w).
Proof.
  intros Hdown Hr Hc. cbv zeta. unfold drag.
  rewrite handle_events_cons, (handle_down a down d w Hdown). cbn [fst snd].
  split; [|split].
  - intros ->.
    rewrite (handle_moves "drink"%string moves down _ a w eq_refl).
    rewrite handle_events_cons,
      (handle_up_drop "drink"%string a _ up r w eq_refl Hr Hc).
    unfold perform, drink, spawn_floating_hearts, bind, print, ret. cbn.
    rewrite Hr, (collidepoint_truthy r _ Hc). repeat split.
  - intros ->.
    rewrite (handle_moves "play"%string moves down _ a w eq_refl).
    rewrite handle_events_cons,
      (handle_up_drop "play"%string a _ up r w eq_refl Hr Hc).
    unfold perform, play, spawn_floating_hearts, bind, print, ret. cbn.
    rewrite Hr, (collidepoint_truthy r _ Hc). repeat split.
  - intros H1 H2 H3.
    destruct (str_truthy (Some d)) eqn:Ed.
    + rewrite (handle_moves d moves down _ a w Ed).
      rewrite handle_events_cons, (handle_up_drop _ a _ up r w Ed Hr Hc).
      unfold perform.
      apply String.eqb_neq in H1, H2, H3. rewrite H1, H2, H3.
      cbn. repeat split.
    + rewrite (handle_moves_idle moves _ (set_drag (Some d) (Some down) a) w Ed).
      rewrite handle_events_cons,
        (handle_up_idle up (set_drag (Some d) (Some down) a) w Ed).
      cbn. repeat split.
Qed.

Lemma drag_drop_actions_witness :
  let a := mkApp (mkPetState 50 60 40 1 1000 false) None None
                 [("feed"%string, mkRect 86 293 16 16);
                  ("drink"%string, mkRect 219 293 16 16)]
                 (Some (mkRect 176 132 128 128)) [] in
  let w := mkWorld (fun _ => 2000) 0 ∅ [] in
  pet (snd (fst (handle_events (drag (220, 300)%Z [(240, 200)%Z] (240, 200)%Z) a w)))
  = set_thirst (py_max 0 (60 - FEED_AMOUNT)) (mkPetState 50 60 40 1 1000 false).
Proof.
  cbv zeta.
  refine (proj1 (proj1 (drag_drop_actions "drink"
            (mkApp (mkPetState 50 60 40 1 1000 false) None None
                   [("feed"%string, mkRect 86 293 16 16);
                    ("drink"%string, mkRect 219 293 16 16)]
                   (Some (mkRect 176 132 128 128)) [])
            (220, 300)%Z [(240, 200)%Z] (240, 200)%Z (mkRect 176 132 128 128)
            (mkWorld (fun _ => 2000) 0 ∅ []) _ _ _) _)); reflexivity.
Defined.

(** X14: a press that hits no emoji starts no drag: when nothing is
    being dragged, the press, the moves and the release leave the pet,
    the hearts and the world as they were. *)
Theorem press_miss_does_nothing a down moves up w :
  str_truthy (dragged_emoji a) = false ->
  first_hit (emoji_rects a) down = None ->
  handle_events (drag down moves up) a w = ((true, set_drag None None a), w).
Proof.
  intros Hd Hmiss. unfold drag. rewrite handle_events_cons.
  assert (E : handle_event (MOUSEBUTTONDOWN down) a w = ((true, a), w)).
  { unfold handle_event, handle_mouse, bind. rewrite Hmiss. reflexivity. }
  rewrite E. cbn [fst snd].
  rewrite (handle_moves_idle moves _ a w Hd).
  rewrite handle_events_cons, (handle_up_idle up a w Hd). reflexivity.
Qed.

Lemma press_miss_does_nothing_witness :
  let a := mkApp PetState_default None None
                 [("feed"%string, mkRect 86 293 16 16)]
                 (Some (mkRect 176 132 128 128)) [] in
  let w := mkWorld (fun _ => 2000) 0 ∅ [] in
  handle_events (drag (240, 200)%Z [(241, 201)%Z] (242, 202)%Z) a w
  = ((true, set_drag None None a), w).
Proof.
  cbv zeta.
  refine (press_miss_does_nothing
            (mkApp PetState_default None None
                   [("feed"%string, mkRect 86 293 16 16)]
                   (Some (mkRect 176 132 128 128)) [])
            (240, 200)%Z [(241, 201)%Z] (242, 202)%Z
            (mkWorld (fun _ => 2000) 0 ∅ []) _ _); reflexivity.
Defined.

(** ** What input can do to the pet *)

Lemma touched_good s s' :
  healthy s -> touched s s' ->
  healthy s' /\ hunger s' <= hunger s /\ thirst s' <= thirst s /\
  happiness s <= happiness s'.
Proof.
  intros [[[Hh0 Hh1] [[Ht0 Ht1] [Hp0 Hp1]]] Hl] Ht.
  unfold healthy, in_range, touched, FEED_AMOUNT, PLAY_AMOUNT in *.
  destruct Ht as [-> | [-> | [-> | [-> | [t ->]]]]]; cbn;
    unfold py_max, py_min; case_min;
    repeat split; try assumption; try lra; try lia.
Qed.

Lemma handle_events_healthy events : forall a w,
  healthy (pet a) ->
  healthy (pet (snd (fst (handle_events events a w)))) /\
  hunger (pet (snd (fst (handle_events events a w)))) <= hunger (pet a) /\
  thirst (pet (snd (fst (handle_events events a w)))) <= thirst (pet a) /\
  happiness (pet a) <= happiness (pet (snd (fst (handle_events events a w)))).
Proof.
  induction events as [|e rest IH]; intros a w Hh.
  - cbn. repeat split; try apply Hh; lra.
  - rewrite handle_events_cons. destruct (is_quit e) eqn:E.
    + rewrite (handle_event_quit e a w E). cbn. repeat split; try apply Hh; lra.
    + destruct (handle_event_go e a w E) as (-> & _ & Ht).
      destruct (touched_good _ _ Hh Ht) as (Hh1 & A & B & C).
      destruct (IH _ (snd (handle_event e a w)) Hh1) as (Hh2 & A' & B' & C').
      repeat split; try apply Hh2; lra.
Qed.

(** X15: input never harms the pet.  Whatever the events, a pet with
    stats within [0,100] and level at least 1 is left so by
    [handle_events], with hunger and thirst no higher and happiness no
    lower than before. *)
Theorem handle_events_never_harms events a w :
  healthy (pet a) ->
  let a' := snd (fst (handle_events events a w)) in
  healthy (pet a') /\
  hunger (pet a') <= hunger (pet a) /\ thirst (pet a') <= thirst (pet a) /\
  happiness (pet a) <= happiness (pet a').
Proof.
  intros Hh. exact (handle_events_healthy events a w Hh).
Qed.

Lemma handle_events_never_harms_witness :
  let a := mkApp (mkPetState 50 60 40 3 1000 false) None None [] None [] in
  let w := mkWorld (fun _ => 2000) 0 ∅ [] in
  hunger (pet (snd (fst (handle_events [KEYDOWN K_f; KEYDOWN K_r; KEYDOWN K_p] a w))))
  <= 50.
Proof.
  cbv zeta.
  refine (proj1 (proj2 (handle_events_never_harms
            [KEYDOWN K_f; KEYDOWN K_r; KEYDOWN K_p]
            (mkApp (mkPetState 50 60 40 3 1000 false) None None [] None [])
            (mkWorld (fun _ => 2000) 0 ∅ []) _))).
  unfold healthy, in_range; cbn. repeat split; try lra; lia.
Defined.

(** ** The main loop keeps the invariant of the data model *)

Lemma tick_range_step m r s w :
  in_range s -> 0 <= m -> 0 <= r -> in_range (fst (tick m r s w)).
Proof.
  intros [[Hh0 Hh1] [[Ht0 Ht1] [Hp0 Hp1]]] Hm Hr.
  destruct (tick_stats m r s w) as (Hh & Ht & Hp & _). cbv zeta in *.
  assert (0 <= r * m) by (apply Qmult_le_0_compat; assumption).
  unfold in_range. rewrite Hh, Ht, Hp.
  unfold py_min, py_max. case_min; repeat split; lra.
Qed.

Lemma frame_minutes_nonneg dt_ms : (0 <= dt_ms)%Z -> 0 <= inject_Z dt_ms / 1000 / 60.
Proof.
  intros H. apply Qle_shift_div_l; [reflexivity|].
  apply Qle_shift_div_l; [reflexivity|].
  rewrite !Qmult_0_l. change 0 with (inject_Z 0). rewrite <- Zle_Qle. exact H.
Qed.

(** X16: starting from a pet with stats within [0,100] and level at
    least 1, every state that the main loop can reach by handling events,
    by ticking the pet with the milliseconds of a frame at the configured
    decay rate, and by steps that leave the pet alone, has stats within
    [0,100] and level at least 1. *)
Theorem frames_keep_healthy a w a' w' :
  healthy (pet a) -> frame_steps (a, w) (a', w') -> healthy (pet a').
Proof.
  intros Hh Hsteps.
  remember (a, w) as x eqn:Ex. remember (a', w') as z eqn:Ez.
  revert a' w' Ez.
  induction Hsteps as [x | x y z Hxy IH Hyz]; intros a' w' Ez; subst.
  - inversion Ez; subst. exact Hh.
  - destruct y as [a1 w1]. specialize (IH eq_refl a1 w1 eq_refl).
    inversion Hyz as [events a2 w2 | dt_ms a2 w2 Hdt | a2 a3 w2 w3 Hpet]; subst.
    + apply (handle_events_healthy events a1 w1 IH).
    + cbn [pet set_pet]. destruct IH as [Hr Hl]. split.
      * apply tick_range_step; [exact Hr | apply frame_minutes_nonneg, Hdt |].
        vm_compute. discriminate.
      * apply (tick_level_cases _ _ _ _ Hl).
    + rewrite Hpet. exact IH.
Qed.

Lemma frames_keep_healthy_witness :
  let a := mkApp PetState_default None None [] None [] in
  let w := mkWorld (fun _ => 2000) 0 ∅ [] in
  healthy (pet (set_pet (fst (tick (inject_Z 33 / 1000 / 60) STAT_DECAY_PER_MIN
                                   (pet a) w)) a)).
Proof.
  cbv zeta.
  refine (frames_keep_healthy
            (mkApp PetState_default None None [] None [])
            (mkWorld (fun _ => 2000) 0 ∅ []) _ _ _
            (steps_more _ _ _ (steps_none _)
               (step_tick 33 (mkApp PetState_default None None [] None [])
                          (mkWorld (fun _ => 2000) 0 ∅ []) _))).
  - unfold healthy, in_range; cbn. repeat split; try lra; lia.
  - lia.
Defined.

(** ** Keyboard shortcuts *)

(** X20: the keys f, d and p do what a completed drop of the "feed",
    "drink" and "play" emoji does: from an idle machine, the key leaves
    the same pet, hearts, drag state and world as the whole drag. *)
Theorem shortcut_equals_drop a down moves up r w :
  pet_rect a = Some r ->
  collidepoint r (tracked down moves) = true ->
  (first_hit (emoji_rects a) down = Some "feed"%string ->
   handle_events [KEYDOWN K_f] (set_drag None None a) w =
   handle_events (drag down moves up) a w) /\
  (first_hit (emoji_rects a) down = Some "drink"%string ->
   handle_events [KEYDOWN K_d] (set_drag None None a) w =
   handle_events (drag down moves up) a w) /\
  (first_hit (emoji_rects a) down = Some "play"%string ->
   handle_events [KEYDOWN K_p] (set_drag None None a) w =
   handle_events (drag down moves up) a w).
Proof.
  intros Hr Hc.
  pose proof (collidepoint_truthy r _ Hc) as Ht.
  split; [|split]; intros Hdown; unfold drag;
    rewrite (handle_events_cons (MOUSEBUTTONDOWN down)),
            (handle_down a down _ w Hdown); cbn [fst snd].
  - rewrite (handle_moves "feed"%string moves down _ a w eq_refl).
    rewrite (handle_events_cons (MOUSEBUTTONUP up)),
            (handle_up_drop "feed"%string a _ up r w eq_refl Hr Hc).
    unfold handle_events, handle_event, handle_key, perform, feed,
           spawn_floating_hearts, bind, print, ret.
    cbn. rewrite Hr, Ht. reflexivity.
  - rewrite (handle_moves "drink"%string moves down _ a w eq_refl).
    rewrite (handle_events_cons (MOUSEBUTTONUP up)),
            (handle_up_drop "drink"%string a _ up r w eq_refl Hr Hc).
    unfold handle_events, handle_event, handle_key, perform, drink,
           spawn_floating_hearts, bind, print, ret.
    cbn. rewrite Hr, Ht. reflexivity.
  - rewrite (handle_moves "play"%string moves down _ a w eq_refl).
    rewrite (handle_events_cons (MOUSEBUTTONUP up)),
            (handle_up_drop "play"%string a _ up r w eq_refl Hr Hc).
    unfold handle_events, handle_event, handle_key, perform, play,
           spawn_floating_hearts, bind, print, ret.
    cbn. rewrite Hr, Ht. reflexivity.
Qed.

Lemma shortcut_equals_drop_witness :
  let a := mkApp (mkPetState 50 60 40 1 1000 false) None None
                 [("feed"%string, mkRect 86 293 16 16)]
                 (Some (mkRect 176 132 128 128)) [] in
  let w := mkWorld (fun _ => 2000) 0 ∅ [] in
  handle_events [KEYDOWN K_f] (set_drag None None a) w =
  handle_events (drag (90, 300)%Z [(240, 200)%Z] (240, 200)%Z) a w.
Proof.
  cbv zeta.
  refine (proj1 (shortcut_equals_drop
            (mkApp (mkPetState 50 60 40 1 1000 false) None None
                   [("feed"%string, mkRect 86 293 16 16)]
                   (Some (mkRect 176 132 128 128)) [])
            (90, 300)%Z [(240, 200)%Z] (240, 200)%Z (mkRect 176 132 128 128)
            (mkWorld (fun _ => 2000) 0 ∅ []) _ _) _); reflexivity.
Defined.

(** ** The floating hearts *)

Lemma heart_eqb_expired k h : heart_eqb k h = true -> expired k = expired h.
Proof.
  unfold heart_eqb, expired. intros H.
  apply andb_true_iff in H as [H Hl]. apply andb_true_iff in H as [_ Ha].
  apply Qeq_bool_iff in Hl, Ha.
  destruct (Qlt_bool_spec (heart_lifespan k) (heart_age k)),
           (Qlt_bool_spec (heart_lifespan h) (heart_age h));
    try reflexivity; exfalso; lra.
Qed.

(** No heart that is kept equals an expired one, so [remove] finds the
    visited heart itself. *)
Lemma list_remove_kept h kept :
  Forall (fun k => expired k = false) kept -> expired h = true ->
  list_remove h kept = None.
Proof.
  intros Hk He. induction Hk as [|k kept Hk _ IH]; [reflexivity|].
  cbn [list_remove]. destruct (heart_eqb k h) eqn:E.
  - apply heart_eqb_expired in E. congruence.
  - rewrite IH. reflexivity.
Qed.

Lemma update_loop_spec dt pending : forall kept,
  Forall (fun k => expired k = false) kept ->
  update_loop dt kept pending =
  kept ++ List.filter (fun h => negb (expired h)) (map (age_heart dt) pending).
Proof.
  induction pending as [|h rest IH]; intros kept Hk; cbn [update_loop map List.filter].
  - symmetry. apply app_nil_r.
  - destruct (expired (age_heart dt h)) eqn:E; cbn [negb].
    + rewrite (list_remove_kept _ kept Hk E). apply IH, Hk.
    + rewrite IH.
      * rewrite <- app_assoc. reflexivity.
      * apply Forall_app. split; [exact Hk|]. constructor; [exact E | constructor].
Qed.

Lemma hearts_after_update dt a :
  floating_hearts (update_floating_hearts dt a) =
  List.filter (fun h => negb (expired h)) (map (age_heart dt) (floating_hearts a)).
Proof.
  unfold update_floating_hearts. cbn [floating_hearts set_floating_hearts].
  rewrite update_loop_spec by constructor. reflexivity.
Qed.

(** X17: [update_floating_hearts] ages every heart and takes out exactly
    the hearts whose age then exceeds their lifespan: the removal by
    equality never takes out another heart.  So no heart that is left is
    older than its lifespan, and the list never grows. *)
Theorem update_hearts_filters dt a :
  let hearts := floating_hearts (update_floating_hearts dt a) in
  hearts = List.filter (fun h => negb (expired h))
                       (map (age_heart dt) (floating_hearts a)) /\
  Forall (fun h => heart_age h <= heart_lifespan h) hearts /\
  (length hearts <= length (floating_hearts a))%nat /\
  pet (update_floating_hearts dt a) = pet a.
Proof.
  cbv zeta. rewrite hearts_after_update. split; [reflexivity|]. split; [|split].
  - apply List.Forall_forall. intros h Hin. apply List.filter_In in Hin as [_ He].
    apply negb_true_iff in He. apply Qlt_bool_false in He. exact He.
  - rewrite <- (List.length_map (age_heart dt) (floating_hearts a)).
    apply List.filter_length_le.
  - reflexivity.
Qed.

(** X18: for a time step that is not negative a heart never moves down,
    and never moves sideways: every heart left by the update comes from
    a heart of the list, at the same x, at the same height or higher, and
    older by the time step.  The three hearts of a spawn, the last of
    which starts 0.2 s late and lives 1.5 s, are all gone after an update
    of more than 1.7 s. *)
Theorem hearts_float_up dt a :
  0 <= dt ->
  (forall h', In h' (floating_hearts (update_floating_hearts dt a)) ->
     exists h, In h (floating_hearts a) /\
               heart_x h' = heart_x h /\ heart_y h' <= heart_y h /\
               heart_age h' = heart_age h + dt /\
               heart_lifespan h' = heart_lifespan h) /\
  (forall r, floating_hearts a = [] -> pet_rect a = Some r -> 17 # 10 < dt ->
     floating_hearts (update_floating_hearts dt (spawn_floating_hearts a)) = []).
Proof.
  intros Hdt. split.
  - intros h' Hin. rewrite hearts_after_update in Hin.
    apply List.filter_In in Hin as [Hin _].
    apply List.in_map_iff in Hin as (h & <- & Hin).
    exists h. split; [exact Hin|]. unfold age_heart; cbn.
    repeat split. destruct (Qlt_bool 0 (heart_age h + dt)); lra.
  - intros r He Hr Hbig. rewrite hearts_after_update.
    unfold spawn_floating_hearts. rewrite Hr.
    destruct (rect_truthy r); cbn [floating_hearts set_floating_hearts];
      rewrite He; [|reflexivity].
    cbn [app new_hearts map List.filter].
    unfold expired, age_heart; cbn [heart_age heart_lifespan].
    change (inject_Z 0) with 0. change (inject_Z 1) with 1.
    change (inject_Z 2) with 2.
    rewrite !(proj2 (Qlt_bool_true _ _)) by lra.
    reflexivity.
Qed.

Lemma hearts_float_up_witness :
  let a := mkApp PetState_default None None [] (Some (mkRect 176 132 128 128)) [] in
  floating_hearts (update_floating_hearts 2 (spawn_floating_hearts a)) = [].
Proof.
  cbv zeta.
  refine (proj2 (hearts_float_up 2
            (mkApp PetState_default None None [] (Some (mkRect 176 132 128 128)) []) _)
            (mkRect 176 132 128 128) _ _ _).
  - lra.
  - reflexivity.
  - reflexivity.
  - reflexivity.
Defined.

(** * Properties of weather.py *)

Lemma lower_char_idem c : lower_char (lower_char c) = lower_char c.
Proof.
  destruct c as [[] [] [] [] [] [] [] []]; reflexivity.
Qed.

Lemma lower_idem s : lower (lower s) = lower s.
Proof.
  induction s as [|c s IH]; [reflexivity|].
  cbn [lower]. rewrite lower_char_idem, IH. reflexivity.
Qed.

Lemma map_icon_in main : In (_map_icon main) icon_keys.
Proof.
  unfold _map_icon, icon_keys.
  destruct (contains "rain" _); [cbn; tauto|].
  destruct (contains "snow" _); [cbn; tauto|].
  destruct (contains "cloud" _); [cbn; tauto|].
  destruct (_ || _); cbn; tauto.
Qed.

(** X19: [_map_icon] always returns one of the five icon keys, whatever
    the condition text; it ignores the case of ASCII letters; and it maps
    each icon key to itself, so mapping twice is mapping once. *)
Theorem map_icon_total main :
  In (_map_icon main) icon_keys /\
  _map_icon (lower main) = _map_icon main /\
  _map_icon (_map_icon main) = _map_icon main /\
  (In main icon_keys -> _map_icon main = main).
Proof.
  assert (Hfix : forall k, In k icon_keys -> _map_icon k = k).
  { unfold icon_keys. cbn [In].
    intros k [<- | [<- | [<- | [<- | [<- | []]]]]]; reflexivity. }
  split; [apply map_icon_in|]. split; [|split].
  - unfold _map_icon. rewrite lower_idem. reflexivity.
  - apply Hfix, map_icon_in.
  - apply Hfix.
Qed.

Lemma map_icon_total_witness : _map_icon "clouds" = "clouds"%string.
Proof.
  refine (proj2 (proj2 (proj2 (map_icon_total "clouds"))) _).
  cbn. tauto.
Defined.
